(** * GitSpace plugin installer: manifest loading and installation

    A shallow embedding of [plugins.go] (package main of ssotops/GitSpace):
    [getPluginsDir], [installPlugin], [installFromGitspaceCatalog],
    [downloadFile], [loadPluginManifest] and [copyFile], over an explicit
    file-system state.  Everything outside the process (the TOML decoder,
    the HTTP client, the catalog fetcher, the [git] and [go] commands, the
    environment) is a field of a [World] record. *)

From stdpp Require Import gmap strings list fin_maps.
From Stdlib Require Import Ascii NArith.

Local Open Scope string_scope.
Local Open Scope list_scope.

(** ** Paths ([path/filepath]) *)

(** A cleaned absolute path, as the list of its elements; [[]] is the root.
    Every path the installer hands to the [os] package is the result of
    [filepath.Join], [filepath.Abs] or [filepath.Dir], hence cleaned. *)
Abbreviation path := (list string).

(** [strings.Split(s, "/")]. *)
Fixpoint split_slash (s : string) : list string :=
  match s with
  | EmptyString => [EmptyString]
  | String c r =>
      let l := split_slash r in
      if Ascii.eqb c "/"%char then EmptyString :: l
      else match l with
           | x :: xs => String c x :: xs
           | [] => [String c EmptyString]
           end
  end.

(** The element-wise part of [filepath.Clean] on a rooted path: empty and
    [.] elements disappear, [..] removes the element before it, and [..] at
    the root is dropped.  [stack] holds the elements kept so far, innermost
    first. *)
Fixpoint clean_from (stack : list string) (elems : list string) : path :=
  match elems with
  | [] => rev stack
  | e :: es =>
      if String.eqb e "" || String.eqb e "." then clean_from stack es
      else if String.eqb e ".." then clean_from (tail stack) es
      else clean_from (e :: stack) es
  end.

(** [filepath.Join(dir, elem)] for a cleaned absolute [dir]. *)
Definition Join (dir : path) (elem : string) : path :=
  clean_from (rev dir) (split_slash elem).

(** [filepath.IsAbs]. *)
Definition IsAbs (s : string) : bool :=
  match s with
  | String c _ => Ascii.eqb c "/"%char
  | EmptyString => false
  end.


(** [filepath.Dir] of a cleaned absolute path. *)
Definition Dir (p : path) : path := removelast p.

(** [filepath.Ext] on one path element: the suffix from its last dot. *)
Fixpoint ext_of (s : string) : string :=
  match s with
  | EmptyString => EmptyString
  | String c r =>
      match ext_of r with
      | EmptyString => if Ascii.eqb c "."%char then s else EmptyString
      | e => e
      end
  end.

Definition Ext (p : path) : string :=
  match last p with
  | Some name => ext_of name
  | None => EmptyString
  end.

(** The textual form of a cleaned absolute path. *)
Fixpoint path_string (p : path) : string :=
  match p with
  | [] => EmptyString
  | e :: es => "/" +:+ e +:+ path_string es
  end.

(** [strings.HasPrefix(s, pre)] and [strings.TrimPrefix(s, pre)]. *)
Definition HasPrefix (s pre : string) : bool := String.prefix pre s.

Definition TrimPrefix (s pre : string) : string :=
  if HasPrefix s pre
  then String.substring (String.length pre) (String.length s - String.length pre) s
  else s.

(** [is_prefix d q]: [q] is [d] or lies below it. *)
Fixpoint is_prefix (d q : path) : bool :=
  match d, q with
  | [], _ => true
  | x :: d', y :: q' => String.eqb x y && is_prefix d' q'
  | _ :: _, [] => false
  end.

(** ** The file system *)

Inductive node : Type :=
  | DirNode (perm : N)
  | FileNode (data : string) (perm : N).

Abbreviation FS := (gmap (list string) node).

Inductive error : Type :=
  | Errorf (msg : string)                    (* fmt.Errorf without %w *)
  | Wrapf (msg : string) (cause : error)     (* fmt.Errorf("msg: %w", cause) *)
  | WrapOutput (msg : string) (cause : error) (output : string)
                                             (* "msg: %w\nOutput: %s" *)
  | ENOENT (p : path)
  | ENOTDIR (p : path)
  | EISDIR (p : path)
  | EEXIST (p : path)
  | External (what : string).                (* an error of a collaborator *)

Inductive result (A : Type) : Type :=
  | Ok (a : A)
  | Err (e : error).
Arguments Ok {A} a.
Arguments Err {A} e.

(** [filepath.Abs]: an absolute name is cleaned; a relative one is joined
    to the working directory, and fails when there is none. *)
Definition Abs (getwd : result path) (s : string) : result path :=
  if IsAbs s then Ok (clean_from [] (split_slash s))
  else match getwd with
       | Ok cwd => Ok (Join cwd s)
       | Err e => Err e
       end.

(** Permission bits used by the source. *)
Definition perm_0755 : N := 0x1ed.
Definition perm_0644 : N := 0x1a4.
Definition perm_0666 : N := 0x1b6.
Definition perm_0700 : N := 0x1c0.

(** Stateful, fallible code: a state and error monad over [FS].  A failing
    step keeps the state it reached: nothing is rolled back. *)
Definition M (A : Type) : Type := FS → result A * FS.

Definition ret {A : Type} (a : A) : M A := λ s, (Ok a, s).
Definition fail {A : Type} (e : error) : M A := λ s, (Err e, s).
Definition bind {A B : Type} (c : M A) (k : A → M B) : M B :=
  λ s, match c s with
       | (Ok a, s') => k a s'
       | (Err e, s') => (Err e, s')
       end.

(** [if err != nil { return fmt.Errorf("msg: %w", err) }]. *)
Definition wrap {A : Type} (msg : string) (c : M A) : M A :=
  λ s, match c s with
       | (Ok a, s') => (Ok a, s')
       | (Err e, s') => (Err (Wrapf msg e), s')
       end.

(** [defer cleanup] around [body]: [cleanup] runs on every way out and its
    own result is discarded. *)
Definition with_defer {A : Type} (cleanup : FS → FS) (body : M A) : M A :=
  λ s, let '(r, s') := body s in (r, cleanup s').

Declare Scope m_scope.
Delimit Scope m_scope with M.
Notation "x <- c ;; k" := (bind c (λ x, k))
  (at level 100, c at next level, right associativity) : m_scope.
Notation "c ;; k" := (bind c (λ _, k))
  (at level 100, right associativity) : m_scope.
Local Open Scope m_scope.

(** *** [os] operations *)

Definition is_dir (s : FS) (p : path) : bool :=
  match p with
  | [] => true
  | _ => match s !! p with Some (DirNode _) => true | _ => false end
  end.

Definition is_file (s : FS) (p : path) : bool :=
  match s !! p with Some (FileNode _ _) => true | _ => false end.

(** [os.MkdirAll]: walk down from the root, creating what is missing; an
    element that exists and is not a directory stops it. *)
Fixpoint mkdirAll_from (pre rest : path) (perm : N) : M unit :=
  match rest with
  | [] => ret tt
  | c :: rest' =>
      let p := pre ++ [c] in
      λ s, match s !! p with
           | Some (FileNode _ _) => (Err (ENOTDIR p), s)
           | Some (DirNode _) => mkdirAll_from p rest' perm s
           | None => mkdirAll_from p rest' perm (<[p := DirNode perm]> s)
           end
  end.

Definition MkdirAll (p : path) (perm : N) : M unit := mkdirAll_from [] p perm.

(** [os.RemoveAll]: the path and everything below it; removing what does
    not exist is no error. *)
Definition remove_tree (p : path) (s : FS) : FS :=
  filter (λ kv, is_prefix p kv.1 = false) s.

Definition RemoveAll (p : path) : M unit := λ s, (Ok tt, remove_tree p s).

(** [os.ReadFile]. *)
Definition ReadFile (p : path) : M string :=
  λ s, match s !! p with
       | Some (FileNode data _) => (Ok data, s)
       | Some (DirNode _) => (Err (EISDIR p), s)
       | None => (Err (ENOENT p), s)
       end.

(** [os.WriteFile] and [os.Create] followed by a write: the file is created
    with [perm] when absent; an existing file is truncated and keeps its
    permission bits.  The parent must be a directory. *)
Definition WriteFile (p : path) (data : string) (perm : N) : M unit :=
  λ s, if negb (is_dir s (Dir p)) then (Err (ENOENT p), s)
       else match s !! p with
            | Some (DirNode _) => (Err (EISDIR p), s)
            | Some (FileNode _ old) => (Ok tt, <[p := FileNode data old]> s)
            | None =>
                match p with
                | [] => (Err (EISDIR p), s)
                | _ => (Ok tt, <[p := FileNode data perm]> s)
                end
            end.

(** [os.Stat], reduced to what the installer looks at: [IsDir()]. *)
Definition Stat (p : path) : M bool :=
  λ s, if is_dir s p then (Ok true, s)
       else if is_file s p then (Ok false, s)
       else (Err (ENOENT p), s).

(** [os.IsNotExist(err)] after [os.Stat(p)]. *)
Definition not_exist (s : FS) (p : path) : bool :=
  negb (is_dir s p) && negb (is_file s p).

(** ** Data model *)

(** [PluginManifest] (the [plugin] table of gitspace-plugin.toml). *)
Record Repository : Type := {
  repo_Type : string;
  repo_URL : string;
  repo_Branch : string
}.

Record Source : Type := {
  Path : string;
  EntryPoint : string;
  src_Repository : Repository
}.

Record PluginManifest : Type := {
  Name : string;
  Version : string;
  Description : string;
  Author : string;
  Sources : list Source
}.

(** [plugin.Plugin] as an entry of the catalog, and [GitspaceCatalog]
    reduced to its [Plugins] map (the only field the installer reads). *)
Record Plugin : Type := {
  plugin_Path : string;
  plugin_Version : string;
  plugin_Description : string
}.

Record GitspaceCatalog : Type := {
  Plugins : gmap string Plugin
}.

(** ** The world outside the process *)

(** An HTTP response: [StatusCode], [Status] and the body. *)
Record Response : Type := {
  StatusCode : nat;
  Status : string;
  Body : string
}.

Record World : Type := {
  (** [os.UserHomeDir()] *)
  UserHomeDir : result path;
  (** [os.Getwd()], which [filepath.Abs] resolves relative names against *)
  Getwd : result path;
  (** the name [os.MkdirTemp("", "gitspace-plugin-*")] settles on *)
  TempName : path;
  (** [toml.Unmarshal(data, &manifest)] *)
  toml_Unmarshal : string → result PluginManifest;
  (** [http.Get(url)] *)
  http_Get : string → result Response;
  (** [lib.FetchGitspaceCatalog(owner, repo)] *)
  FetchGitspaceCatalog : string → string → result GitspaceCatalog;
  (** [exec.Command(argv...)] with [cmd.Dir], run by [CombinedOutput]:
      the output, the error if the command failed, and what it did to the
      file system *)
  CombinedOutput : list string → option path → FS → (string * option error) * FS;
  (** [runtime.Version()] *)
  runtime_Version : string
}.

(** ** The installer *)

Section Installer.

Context (w : World).

(** [os.MkdirTemp]: the directory is new, with mode 0700, inside an
    existing directory. *)
Definition MkdirTemp : M path :=
  λ s, let p := TempName w in
       if negb (is_dir s (Dir p)) then (Err (ENOENT p), s)
       else match p, s !! p with
            | _ :: _, None => (Ok p, <[p := DirNode perm_0700]> s)
            | _, _ => (Err (EEXIST p), s)
            end.

(** Running an external command and turning its failure into
    [fmt.Errorf("msg: %w\nOutput: %s", err, output)]. *)
Definition run_command (argv : list string) (dir : option path) (msg : string) : M unit :=
  λ s, match CombinedOutput w argv dir s with
       | ((_, None), s') => (Ok tt, s')
       | ((output, Some e), s') => (Err (WrapOutput msg e output), s')
       end.

Definition getPluginsDir : M path :=
  match UserHomeDir w with
  | Err e => fail (Wrapf "failed to get user home directory" e)
  | Ok homeDir =>
      let pluginsDir := Join (Join (Join homeDir ".ssot") "gitspace") "plugins" in
      wrap "failed to create plugins directory" (MkdirAll pluginsDir perm_0755) ;;
      ret pluginsDir
  end.

Definition loadPluginManifest (path : path) : M PluginManifest :=
  data <- wrap "failed to read manifest file" (ReadFile path) ;;
  match toml_Unmarshal w data with
  | Err e => fail (Wrapf "failed to decode manifest" e)
  | Ok manifest => ret manifest
  end.

Definition copyFile (src dst : path) : M unit :=
  let dstDir := Dir dst in
  wrap "failed to create destination directory" (MkdirAll dstDir perm_0755) ;;
  input <- wrap "failed to read source file" (ReadFile src) ;;
  wrap "failed to write destination file" (WriteFile dst input perm_0644).

Definition downloadFile (url : string) (filepath : path) : M unit :=
  match http_Get w url with
  | Err e => fail e
  | Ok resp =>
      if negb (Nat.eqb (StatusCode resp) 200)
      then fail (Errorf ("bad status: " +:+ Status resp))
      else WriteFile filepath (Body resp) perm_0666
  end.

Definition gitClone (url : string) (destPath : path) : M unit :=
  run_command ["git"; "clone"; url; path_string destPath] None "git clone failed".

(** The loop of [installPlugin] over [manifest.Plugin.Sources]. *)
Fixpoint copySources (sourceDir pluginDir : path) (sources : list Source) : M unit :=
  match sources with
  | [] => ret tt
  | source :: rest =>
      let sourcePath := Join sourceDir (Path source) in
      let destPath := Join pluginDir (Path source) in
      wrap ("failed to copy plugin file " +:+ Path source) (copyFile sourcePath destPath) ;;
      copySources sourceDir pluginDir rest
  end.

(** [installPlugin], "Remove existing plugin directory" to the end of the
    source loop: the destination is emptied, recreated and filled. *)
Definition copyPlugin (pluginDir manifestPath sourceDir : path)
    (sources : list Source) : M unit :=
  wrap "failed to remove existing plugin directory" (RemoveAll pluginDir) ;;
  wrap "failed to create plugin directory" (MkdirAll pluginDir perm_0755) ;;
  let destManifestPath := Join pluginDir "gitspace-plugin.toml" in
  wrap "failed to copy manifest file" (copyFile manifestPath destManifestPath) ;;
  copySources sourceDir pluginDir sources.

(** [installPlugin], "Create or update go.mod file" to the end. *)
Definition goModSetup (pluginDir : path) (name : string) : M unit :=
  let goModPath := Join pluginDir "go.mod" in
  (λ s, if not_exist s goModPath
        then run_command ["go"; "mod"; "init";
                          "github.com/ssotops/gitspace/plugins/" +:+ name]
               (Some pluginDir) "failed to initialize go.mod" s
        else (Ok tt, s)) ;;
  let goVersion := TrimPrefix (runtime_Version w) "go" in
  run_command ["go"; "mod"; "edit"; "-go"; goVersion] (Some pluginDir)
    "failed to update go.mod version" ;;
  run_command ["go"; "mod"; "tidy"] (Some pluginDir) "failed to tidy go.mod".

(** [installPlugin] from "Loading plugin manifest" on, once [manifestPath]
    and [sourceDir] are known. *)
Definition installManifest (pluginsDir manifestPath sourceDir : path) : M unit :=
  manifest <- wrap "failed to load manifest" (loadPluginManifest manifestPath) ;;
  let pluginDir := Join pluginsDir (Name manifest) in
  copyPlugin pluginDir manifestPath sourceDir (Sources manifest) ;;
  goModSetup pluginDir (Name manifest).

(** The branch "Handle local installation": the manifest path and the
    source directory of a local [source]. *)
Definition resolveLocal (source : string) : M (path * path) :=
  match Abs (Getwd w) source with
  | Err e => fail (Wrapf "failed to get absolute path of source" e)
  | Ok absSource =>
      isDir <- wrap "failed to get source info" (Stat absSource) ;;
      if isDir : bool then ret (Join absSource "gitspace-plugin.toml", absSource)
      else if String.eqb (Ext absSource) ".toml" then ret (absSource, Dir absSource)
      else fail (Errorf "invalid source: must be a directory or .toml file")
  end.

(** The loop of [installFromGitspaceCatalog] over the sources. *)
Fixpoint downloadSources (rawGitHubURL : string) (tempDir : path)
    (sources : list Source) : M unit :=
  match sources with
  | [] => ret tt
  | source :: rest =>
      let sourceURL := rawGitHubURL +:+ "/" +:+ Path source in
      let sourcePath := Join tempDir (Path source) in
      wrap ("failed to download source file " +:+ Path source)
        (downloadFile sourceURL sourcePath) ;;
      downloadSources rawGitHubURL tempDir rest
  end.

(** [installFromGitspaceCatalog]; [install] is the [installPlugin] it calls
    on the temporary directory at its end. *)
Definition installFromGitspaceCatalog (install : string → M unit)
    (catalogItem : string) : M unit :=
  let owner := "ssotops" in
  let repo := "gitspace-catalog" in
  let defaultBranch := "master" in
  match FetchGitspaceCatalog w owner repo with
  | Err e => fail (Wrapf "failed to fetch Gitspace Catalog" e)
  | Ok catalog =>
      match Plugins catalog !! catalogItem with
      | None => fail (Errorf ("plugin " +:+ catalogItem +:+ " not found in Gitspace Catalog"))
      | Some plugin =>
          if String.eqb (plugin_Path plugin) ""
          then fail (Errorf ("no path found for plugin " +:+ catalogItem
                             +:+ " in Gitspace Catalog"))
          else
            let rawGitHubURL :=
              "https://raw.githubusercontent.com/" +:+ owner +:+ "/" +:+ repo
              +:+ "/" +:+ defaultBranch +:+ "/" +:+ plugin_Path plugin in
            tempDir <- wrap "failed to create temporary directory" MkdirTemp ;;
            with_defer (remove_tree tempDir)
              (let manifestURL := rawGitHubURL +:+ "/gitspace-plugin.toml" in
               let manifestPath := Join tempDir "gitspace-plugin.toml" in
               wrap "failed to download gitspace-plugin.toml"
                 (downloadFile manifestURL manifestPath) ;;
               pluginManifest <- wrap "failed to load plugin manifest"
                                   (loadPluginManifest manifestPath) ;;
               downloadSources rawGitHubURL tempDir (Sources pluginManifest) ;;
               install (path_string tempDir))
      end
  end.

(** The body of [installPlugin]; [catalog] is the
    [installFromGitspaceCatalog] it calls for a [catalog://] source. *)
Definition installPlugin_body (catalog : string → M unit) (source : string) : M unit :=
  pluginsDir <- wrap "failed to get plugins directory" getPluginsDir ;;
  let isRemote := HasPrefix source "http://" || HasPrefix source "https://" in
  let isCatalog := HasPrefix source "catalog://" in
  if isCatalog then
    let catalogItem := TrimPrefix source "catalog://" in
    catalog catalogItem
  else if isRemote then
    tempDir <- wrap "failed to create temporary directory" MkdirTemp ;;
    with_defer (remove_tree tempDir)
      (wrap "failed to clone remote repository" (gitClone source tempDir) ;;
       installManifest pluginsDir (Join tempDir "gitspace-plugin.toml") tempDir)
  else
    local <- resolveLocal source ;;
    let '(manifestPath, sourceDir) := local in
    installManifest pluginsDir manifestPath sourceDir.

(** [installPlugin] and [installFromGitspaceCatalog] call each other.  The
    call from the catalog side passes a temporary directory, whose name is
    no [catalog://] reference, so one unfolding of each closes the knot
    (lemma [installPlugin_unfold] below). *)
Definition installPlugin : string → M unit :=
  installPlugin_body
    (installFromGitspaceCatalog
       (installPlugin_body (λ _, fail (Errorf "unreachable")))).

End Installer.

(** ** Predicates used in the statements *)

(** A plain directory or file name: one element, not [.] or [..]. *)
Definition plain_name (n : string) : bool :=
  match split_slash n with
  | [e] => negb (String.eqb e "" || String.eqb e "." || String.eqb e "..")
  | _ => false
  end.

(** Every nonempty prefix of [p] is a directory. *)
Definition dirs_to (s : FS) (p : path) : Prop :=
  ∀ q, q `prefix_of` p → q ≠ [] → ∃ pm, s !! q = Some (DirNode pm).


(** The manifest with every [entry_point] blanked, and a world whose
    decoder is replaced. *)
Definition erase_entry_point (src : Source) : Source :=
  {| Path := Path src; EntryPoint := ""; src_Repository := src_Repository src |}.

Definition erase_entry_points (m : PluginManifest) : PluginManifest :=
  {| Name := Name m; Version := Version m; Description := Description m;
     Author := Author m; Sources := map erase_entry_point (Sources m) |}.

Definition with_decoder (w : World) (decode : string → result PluginManifest) : World :=
  {| UserHomeDir := UserHomeDir w; Getwd := Getwd w; TempName := TempName w;
     toml_Unmarshal := decode; http_Get := http_Get w;
     FetchGitspaceCatalog := FetchGitspaceCatalog w;
     CombinedOutput := CombinedOutput w; runtime_Version := runtime_Version w |}.

Definition decode_erased (w : World) (data : string) : result PluginManifest :=
  match toml_Unmarshal w data with
  | Ok m => Ok (erase_entry_points m)
  | Err e => Err e
  end.

(** A download that cannot succeed, whatever the file system: the request
    fails or the status is not 200. *)
Definition http_fails (w : World) (url : string) : bool :=
  match http_Get w url with
  | Ok resp => negb (Nat.eqb (StatusCode resp) 200)
  | Err _ => true
  end.

(** A command run in a directory changes nothing outside that directory. *)
Definition commands_confined (w : World) : Prop :=
  ∀ argv dir s out s', CombinedOutput w argv (Some dir) s = (out, s') →
    ∀ q, is_prefix dir q = false → s' !! q = s !! q.

(** Every declared source is installed inside [pluginDir]. *)
Definition sources_confined (pluginDir : path) (sources : list Source) : bool :=
  forallb (λ src, is_prefix pluginDir (Join pluginDir (Path src))) sources.

(** Inside [pluginDir], every regular file has mode 0644 and is one of
    the [allowed] destinations. *)
Definition files_inside (pluginDir : path) (allowed : path → Prop) (t : FS) : Prop :=
  ∀ q data pm, pluginDir `prefix_of` q → t !! q = Some (FileNode data pm) →
    pm = perm_0644 ∧ allowed q.

(** ** A world and a file system for the examples *)

(** The [go] tool as far as the installer uses it: [go mod init] writes
    [go.mod] and refuses to overwrite one, [go mod edit -go] rewrites it,
    [go mod tidy] needs it. *)
Definition go_mod_init (goMod : path) (modpath : string) (s : FS)
    : (string * option error) * FS :=
  match s !! goMod with
  | None => (("", None), <[goMod := FileNode ("module " +:+ modpath) perm_0644]> s)
  | Some _ => (("go.mod already exists", Some (External "exit status 1")), s)
  end.

Definition go_mod_edit_go (goMod : path) (v : string) (s : FS)
    : (string * option error) * FS :=
  match s !! goMod with
  | Some (FileNode data perm) =>
      (("", None), <[goMod := FileNode (data +:+ " go " +:+ v) perm]> s)
  | _ => (("go.mod not found", Some (External "exit status 1")), s)
  end.

Definition go_mod_tidy (goMod : path) (s : FS) : (string * option error) * FS :=
  match s !! goMod with
  | Some (FileNode _ _) => (("", None), s)
  | _ => (("go.mod not found", Some (External "exit status 1")), s)
  end.

Definition go_tool (argv : list string) (dir : option path) (s : FS)
    : (string * option error) * FS :=
  let unavailable := (("", Some (External "command not available")), s) in
  match dir with
  | None => unavailable
  | Some d =>
      let goMod := d ++ ["go.mod"] in
      match argv with
      | [a; b; c] =>
          if bool_decide ([a; b; c] = ["go"; "mod"; "tidy"])
          then go_mod_tidy goMod s else unavailable
      | [a; b; c; modpath] =>
          if bool_decide ([a; b; c] = ["go"; "mod"; "init"])
          then go_mod_init goMod modpath s else unavailable
      | [a; b; c; o; v] =>
          if bool_decide ([a; b; c; o] = ["go"; "mod"; "edit"; "-go"])
          then go_mod_edit_go goMod v s else unavailable
      | _ => unavailable
      end
  end.

(** A decoder and an HTTP client given by tables. *)
Fixpoint decode_table (table : list (string * PluginManifest)) (data : string)
    : result PluginManifest :=
  match table with
  | [] => Err (External "toml: malformed document")
  | (text, m) :: rest => if String.eqb text data then Ok m else decode_table rest data
  end.

Fixpoint http_table (table : list (string * Response)) (url : string) : result Response :=
  match table with
  | [] => Err (External "no such host")
  | (u, resp) :: rest => if String.eqb u url then Ok resp else http_table rest url
  end.

Definition no_repo : Repository := {| repo_Type := ""; repo_URL := ""; repo_Branch := "" |}.

Definition mk_source (path entry : string) : Source :=
  {| Path := path; EntryPoint := entry; src_Repository := no_repo |}.

Definition mk_manifest (name version : string) (sources : list Source) : PluginManifest :=
  {| Name := name; Version := version; Description := ""; Author := "";
     Sources := sources |}.

Definition hello_toml : string :=
  "plugin = { name = 'hello', version = '1', sources = [ { path = 'main.go', entry_point = 'main' } ] }".
Definition hello_manifest : PluginManifest :=
  mk_manifest "hello" "1" [mk_source "main.go" "main"].

Definition evil_toml : string :=
  "plugin = { name = 'evil', version = '1', sources = [ { path = '../../etc/passwd', entry_point = 'main' } ] }".
Definition evil_manifest : PluginManifest :=
  mk_manifest "evil" "1" [mk_source "../../etc/passwd" "main"].

Definition bare_toml : string :=
  "plugin = { name = 'bare', version = '1', sources = [ ] }".
Definition bare_manifest : PluginManifest := mk_manifest "bare" "1" [].

Definition mute_toml : string :=
  "plugin = { name = 'mute', version = '1', sources = [ { path = 'main.go', entry_point = '' } ] }".
Definition mute_manifest : PluginManifest :=
  mk_manifest "mute" "1" [mk_source "main.go" ""].

Definition lost_toml : string :=
  "plugin = { name = 'lost', version = '1', sources = [ { path = 'a.go', entry_point = 'main' }, { path = 'b.go', entry_point = 'main' } ] }".
Definition lost_manifest : PluginManifest :=
  mk_manifest "lost" "1" [mk_source "a.go" "main"; mk_source "b.go" "main"].

Definition shift1_toml : string :=
  "plugin = { name = 'shift', version = '1', sources = [ { path = '../../../../../a/b/c/d/e/f/gitspace-plugin.toml', entry_point = 'main' } ] }".
Definition shift1_manifest : PluginManifest :=
  mk_manifest "shift" "1" [mk_source "../../../../../a/b/c/d/e/f/gitspace-plugin.toml" "main"].

Definition shift2_toml : string :=
  "plugin = { name = 'shift', version = '2', sources = [ ] }".
Definition shift2_manifest : PluginManifest := mk_manifest "shift" "2" [].

Definition demo_catalog : GitspaceCatalog :=
  {| Plugins := {[ "hello" := {| plugin_Path := "plugins/hello"; plugin_Version := "1";
                                 plugin_Description := "" |} ]} |}.

Definition demo_world : World :=
  {| UserHomeDir := Ok ["root"];
     Getwd := Ok ["work"];
     TempName := ["tmp"; "gitspace-plugin-1"];
     toml_Unmarshal :=
       decode_table [ (hello_toml, hello_manifest); (evil_toml, evil_manifest);
                      (bare_toml, bare_manifest); (mute_toml, mute_manifest);
                      (lost_toml, lost_manifest);
                      (shift1_toml, shift1_manifest); (shift2_toml, shift2_manifest) ];
     http_Get :=
       http_table
         [ ("https://raw.githubusercontent.com/ssotops/gitspace-catalog/master/plugins/hello/gitspace-plugin.toml",
            {| StatusCode := 200; Status := "200 OK"; Body := hello_toml |});
           ("https://raw.githubusercontent.com/ssotops/gitspace-catalog/master/plugins/hello/main.go",
            {| StatusCode := 404; Status := "404 Not Found"; Body := "" |}) ];
     FetchGitspaceCatalog := λ _ _, Ok demo_catalog;
     CombinedOutput := go_tool;
     runtime_Version := "go1.22.0" |}.

Definition dir_entries (dirs : list path) : list (path * node) :=
  map (λ d, (d, DirNode perm_0755)) dirs.

Definition demo_fs : FS :=
  list_to_map
    (dir_entries [ ["tmp"]; ["work"]; ["work"; "src"]; ["work"; "etc"];
                   ["work"; "src"; "hello"]; ["work"; "src"; "evil"];
                   ["work"; "src"; "bare"]; ["work"; "src"; "mute"];
                   ["work"; "src"; "lost"];
                   ["a"]; ["a"; "b"]; ["a"; "b"; "c"]; ["a"; "b"; "c"; "d"];
                   ["a"; "b"; "c"; "d"; "e"]; ["a"; "b"; "c"; "d"; "e"; "f"];
                   ["a"; "a"]; ["a"; "a"; "b"]; ["a"; "a"; "b"; "c"];
                   ["a"; "a"; "b"; "c"; "d"]; ["a"; "a"; "b"; "c"; "d"; "e"];
                   ["a"; "a"; "b"; "c"; "d"; "e"; "f"] ]
     ++ [ (["work"; "notes.txt"], FileNode "notes" perm_0644);
          (["work"; "src"; "hello"; "gitspace-plugin.toml"], FileNode hello_toml perm_0644);
          (["work"; "src"; "hello"; "main.go"], FileNode "package main" perm_0755);
          (["work"; "src"; "evil"; "gitspace-plugin.toml"], FileNode evil_toml perm_0644);
          (["work"; "etc"; "passwd"], FileNode "root:x:0:0" perm_0644);
          (["work"; "src"; "bare"; "gitspace-plugin.toml"], FileNode bare_toml perm_0644);
          (["work"; "src"; "mute"; "gitspace-plugin.toml"], FileNode mute_toml perm_0644);
          (["work"; "src"; "mute"; "main.go"], FileNode "package main" perm_0644);
          (["work"; "src"; "lost"; "gitspace-plugin.toml"], FileNode lost_toml perm_0644);
          (["work"; "src"; "lost"; "a.go"], FileNode "package main" perm_0644);
          (["a"; "b"; "c"; "d"; "e"; "f"; "gitspace-plugin.toml"],
           FileNode shift1_toml perm_0644);
          (["a"; "a"; "b"; "c"; "d"; "e"; "f"; "gitspace-plugin.toml"],
           FileNode shift2_toml perm_0644) ]).

Definition demo_plugins : path := ["root"; ".ssot"; "gitspace"; "plugins"].

(** [demo_fs] once [getPluginsDir] has run. *)
Definition demo_ready : FS := (getPluginsDir demo_world demo_fs).2.

(** ** Uninstalling, listing and running plugins

    The rest of [plugins.go]: [uninstallPlugin], [printInstalledPlugins],
    [listInstalledPlugins], [runPlugin] and [compileAndRunPlugin]. *)

From stdpp Require sorting.

(** [strings.HasSuffix(s, suf)]. *)
Definition HasSuffix (s suf : string) : bool :=
  let n := String.length s in
  let k := String.length suf in
  (k <=? n)%nat && String.eqb (String.substring (n - k) k s) suf.

(** A directory entry as [os.ReadDir] returns it: [Name()] and [IsDir()]. *)
Definition DirEntry : Type := string * bool.

Definition node_is_dir (n : node) : bool :=
  match n with DirNode _ => true | FileNode _ _ => false end.

(** The entry that [kv] is in the directory [dir], if it lies directly in
    it. *)
Definition dir_entry (dir : path) (kv : path * node) : option DirEntry :=
  match last kv.1 with
  | Some name =>
      if bool_decide (kv.1 = dir ++ [name]) then Some (name, node_is_dir kv.2) else None
  | None => None
  end.

(** The order of [os.ReadDir]: by file name, byte-wise. *)
Definition entry_le (a b : DirEntry) : Prop := String.leb a.1 b.1 = true.

#[global] Instance entry_le_dec : RelDecision entry_le :=
  λ a b, decide (String.leb a.1 b.1 = true).

(** [os.ReadDir]: the entries of a directory, sorted by file name. *)
Definition ReadDir (dir : path) : M (list DirEntry) :=
  λ s, if is_dir s dir
       then (Ok (sorting.merge_sort entry_le (omap (dir_entry dir) (map_to_list s))), s)
       else if is_file s dir then (Err (ENOTDIR dir), s)
       else (Err (ENOENT dir), s).

(** The loop of [printInstalledPlugins] and of [listInstalledPlugins]:
    the names of the entries that are directories, in the order of the
    entries. *)
Fixpoint directory_names (entries : list DirEntry) : list string :=
  match entries with
  | [] => []
  | entry :: rest =>
      if entry.2 then entry.1 :: directory_names rest else directory_names rest
  end.

(** [huh.NewOption(key, value)]. *)
Definition NewOption (key value : string) : string * string := (key, value).

(** [listInstalledPlugins]. *)
Definition listInstalledPlugins (pluginsDir : path) : M (list (string * string)) :=
  entries <- wrap "failed to read plugins directory" (ReadDir pluginsDir) ;;
  ret (map (λ name, NewOption name name) (directory_names entries)).

(** The order of [filepath.Walk]: element by element, a path before what
    lies below it. *)
Fixpoint path_leb (p q : path) : bool :=
  match p, q with
  | [], _ => true
  | _ :: _, [] => false
  | x :: p', y :: q' =>
      match String.compare x y with
      | Lt => true
      | Gt => false
      | Eq => path_leb p' q'
      end
  end.

Definition walk_le (a b : path * node) : Prop := path_leb a.1 b.1 = true.

#[global] Instance walk_le_dec : RelDecision walk_le :=
  λ a b, decide (path_leb a.1 b.1 = true).

(** [q] is at or below [root] and everything from [root] down to the
    parent of [q] is a directory: [filepath.Walk(root, fn)] gets to [q]. *)
Definition reached (root : path) (s : FS) (q : path) : bool :=
  is_prefix root q
  && forallb (λ n, is_dir s (take n q)) (seq (length root) (length q - length root)).

(** What [filepath.Walk(root, fn)] visits, in its order, when [fn] never
    stops it. *)
Definition Walk (root : path) (s : FS) : list (path * node) :=
  sorting.merge_sort walk_le (filter (λ kv, reached root s kv.1 = true) (map_to_list s)).

(** The callback of [compileAndRunPlugin]: a file whose name ends in
    [.go]. *)
Definition is_go_source (kv : path * node) : bool :=
  match kv.2, last kv.1 with
  | FileNode _ _, Some name => HasSuffix name ".go"
  | _, _ => false
  end.

(** [compileAndRunPlugin], "Find the main Go file": the first file the
    walk meets whose name ends in [.go]; the walk of a directory that does
    not exist hands its error to the callback, which returns it. *)
Definition findMainFile (pluginDir : path) : M (option path) :=
  λ s, if negb (is_dir s pluginDir) && negb (is_file s pluginDir)
       then (Err (ENOENT pluginDir), s)
       else (Ok (fst <$> List.find is_go_source (Walk pluginDir s)), s).

(** A symbol of a loaded Go plugin, as far as the type assertions of the
    source tell them apart: a value that implements [GitspacePlugin], with
    its [Run] method, or anything else. *)
Inductive Symbol : Type :=
  | GitspacePluginValue (Run : M unit)
  | OtherValue.

(** A [*plugin.Plugin]: its [Lookup]. *)
Record Library : Type := {
  Lookup : string → result Symbol
}.

(** What running a plugin needs from outside the process. *)
Record Host : Type := {
  (** [huh.NewSelect[string]().Options(options...).Value(&v).Run()]: the
      value of the option picked, or the error of the form *)
  huh_Select : list (string * string) → result string;
  (** [os.Environ()] *)
  os_Environ : list string;
  (** [runtime.GOARCH] and [runtime.GOOS] *)
  runtime_GOARCH : string;
  runtime_GOOS : string;
  (** [exec.Command(argv...)] with [cmd.Dir] and [cmd.Env], run by
      [CombinedOutput] *)
  CombinedOutputEnv :
    list string → path → list string → FS → (string * option error) * FS;
  (** [plugin.Open(path)] *)
  plugin_Open : path → FS → result Library;
  (** the order in which [range catalog.Plugins] visits the keys *)
  range_Plugins : gmap string Plugin → list string
}.

Section Manager.

Context (w : World) (h : Host).

(** [uninstallPlugin]. *)
Definition uninstallPlugin (name : string) : M unit :=
  pluginsDir <- wrap "failed to get plugins directory" (getPluginsDir w) ;;
  let pluginDir := Join pluginsDir name in
  wrap "failed to remove plugin directory" (RemoveAll pluginDir) ;;
  ret tt.

(** [printInstalledPlugins]; the result is what it has printed, one
    element for each [fmt.Println]. *)
Definition printInstalledPlugins : M (list string) :=
  pluginsDir <- wrap "failed to get plugins directory" (getPluginsDir w) ;;
  entries <- wrap "failed to read plugins directory" (ReadDir pluginsDir) ;;
  ret (directory_names entries).

(** [compileAndRunPlugin]. *)
Definition compileAndRunPlugin (pluginDir : path) (pluginName : string) : M unit :=
  found <- wrap "failed to find plugin source file" (findMainFile pluginDir) ;;
  match found with
  | None => fail (Errorf "no Go source file found in plugin directory")
  | Some mainFile =>
      let pluginFile := Join pluginDir (pluginName +:+ ".so") in
      let argv := ["go"; "build"; "-buildmode=plugin"; "-o";
                   path_string pluginFile; path_string mainFile] in
      let env := os_Environ h ++ ["CGO_ENABLED=1";
                                  "GOARCH=" +:+ runtime_GOARCH h;
                                  "GOOS=" +:+ runtime_GOOS h] in
      (λ s, match CombinedOutputEnv h argv pluginDir env s with
            | ((_, None), s') => (Ok tt, s')
            | ((output, Some e), s') =>
                (Err (WrapOutput "failed to compile plugin" e output), s')
            end) ;;
      λ s, match plugin_Open h pluginFile s with
           | Err e => (Err (Wrapf "failed to open plugin" e), s)
           | Ok p =>
               match Lookup p "Plugin" with
               | Err e => (Err (Wrapf "plugin does not have a Plugin symbol" e), s)
               | Ok (GitspacePluginValue Run) => Run s
               | Ok OtherValue =>
                   (Err (Errorf "plugin does not implement GitspacePlugin interface"), s)
               end
           end
  end.

(** [runPlugin]. *)
Definition runPlugin : M unit :=
  pluginsDir <- wrap "failed to get plugins directory" (getPluginsDir w) ;;
  plugins <- wrap "failed to list installed plugins" (listInstalledPlugins pluginsDir) ;;
  match plugins with
  | [] => ret tt
  | _ :: _ =>
      match huh_Select h plugins with
      | Err e => fail (Wrapf "failed to select plugin" e)
      | Ok selectedPlugin =>
          let pluginDir := Join pluginsDir selectedPlugin in
          compileAndRunPlugin pluginDir selectedPlugin
      end
  end.

(** [handleGitspaceCatalogInstall] (the install menu): the catalog's
    plugins are offered under their names, each with the source
    [catalog://name]; the result is the source picked. *)
Definition handleGitspaceCatalogInstall : result string :=
  let owner := "ssotops" in
  let repo := "gitspace-catalog" in
  match FetchGitspaceCatalog w owner repo with
  | Err e => Err (Wrapf "failed to fetch Gitspace Catalog" e)
  | Ok catalog =>
      let options :=
        map (λ name, NewOption name ("catalog://" +:+ name))
          (range_Plugins h (Plugins catalog)) in
      match options with
      | [] => Err (Errorf "no plugins found in the catalog")
      | _ :: _ =>
          match huh_Select h options with
          | Err e => Err (Wrapf "failed to select item" e)
          | Ok selectedItem => Ok selectedItem
          end
      end
  end.

End Manager.

(** A command does not remove the directory it runs in. *)
Definition commands_keep_dir (w : World) : Prop :=
  ∀ argv dir s out s', CombinedOutput w argv (Some dir) s = (out, s') →
    is_dir s dir = true → is_dir s' dir = true.

(** ** A host for the examples *)

(** A form that picks the first option; a build that writes the plugin
    file; no plugin can be opened. *)
Definition demo_host : Host :=
  {| huh_Select := λ options,
       match options with
       | [] => Err (External "no options")
       | o :: _ => Ok o.2
       end;
     os_Environ := ["PATH=/usr/bin"];
     runtime_GOARCH := "amd64";
     runtime_GOOS := "linux";
     CombinedOutputEnv := λ argv dir env s,
       (("", Some (External "exit status 1")), s);
     plugin_Open := λ p s, Err (External "plugin.Open: not a plugin");
     range_Plugins := λ m, (map_to_list m).*1 |}.

(** A catalog with two plugins, both downloadable: [flat] has its source
    beside the manifest, [nested] has it in a sub-directory. *)
Definition flat_toml : string :=
  "plugin = { name = 'flat', version = '1', sources = [ { path = 'main.go', entry_point = 'main' } ] }".
Definition flat_manifest : PluginManifest :=
  mk_manifest "flat" "1" [mk_source "main.go" "main"].

Definition nested_toml : string :=
  "plugin = { name = 'nested', version = '1', sources = [ { path = 'cmd/main.go', entry_point = 'main' } ] }".
Definition nested_manifest : PluginManifest :=
  mk_manifest "nested" "1" [mk_source "cmd/main.go" "main"].

Definition raw_catalog : string :=
  "https://raw.githubusercontent.com/ssotops/gitspace-catalog/master/".

Definition two_catalog : GitspaceCatalog :=
  {| Plugins :=
       {[ "flat" := {| plugin_Path := "plugins/flat"; plugin_Version := "1";
                       plugin_Description := "" |};
          "nested" := {| plugin_Path := "plugins/nested"; plugin_Version := "1";
                         plugin_Description := "" |} ]} |}.

Definition ok_response (body : string) : Response :=
  {| StatusCode := 200; Status := "200 OK"; Body := body |}.

Definition catalog_world : World :=
  {| UserHomeDir := Ok ["root"];
     Getwd := Ok ["work"];
     TempName := ["tmp"; "gitspace-plugin-1"];
     toml_Unmarshal :=
       decode_table [ (flat_toml, flat_manifest); (nested_toml, nested_manifest) ];
     http_Get :=
       http_table
         [ (raw_catalog +:+ "plugins/flat/gitspace-plugin.toml", ok_response flat_toml);
           (raw_catalog +:+ "plugins/flat/main.go", ok_response "package main");
           (raw_catalog +:+ "plugins/nested/gitspace-plugin.toml",
            ok_response nested_toml);
           (raw_catalog +:+ "plugins/nested/cmd/main.go", ok_response "package main") ];
     FetchGitspaceCatalog := λ _ _, Ok two_catalog;
     CombinedOutput := go_tool;
     runtime_Version := "go1.22.0" |}.

(** A plugin directory with two Go files: [cmd/z.go] and [main.go]. *)
Definition walk_fs : FS :=
  list_to_map
    [ (["p"], DirNode perm_0755);
      (["p"; "cmd"], DirNode perm_0755);
      (["p"; "main.go"], FileNode "package main" perm_0644);
      (["p"; "cmd"; "z.go"], FileNode "package main" perm_0644);
      (["p"; "README"], FileNode "read me" perm_0644) ].

(** [demo_fs] with the plugin [hello] installed. *)
Definition demo_installed : FS := (installPlugin demo_world "src/hello" demo_fs).2.


(** Unfolding the monad operations. *)
Ltac unfold_m := unfold bind, wrap, ret, fail, with_defer in *.

(** A run is determined by its result and its final state. *)
Lemma run_eq {A : Type} (x : result A * FS) (r : result A) : x.1 = r → x = (r, x.2).
Proof. destruct x as [r' s']. simpl. by intros ->. Qed.

(** Closing a premise at a concrete input: a run is evaluated for its
    result only, its final state staying as it is written. *)
Ltac by_running :=
  first [ apply run_eq; vm_compute; reflexivity
        | vm_compute; reflexivity
        | discriminate ].

(** ** Facts about paths *)

Lemma is_prefix_spec (d q : path) : is_prefix d q = true ↔ d `prefix_of` q.
Proof.
  revert q; induction d as [|x d IH]; intros q; simpl.
  - split; [intros _; apply prefix_nil | done].
  - destruct q as [|y q].
    + split; [done | intros H; by apply prefix_nil_not in H].
    + rewrite andb_true_iff, String.eqb_eq, IH. split.
      * intros [-> H]. by apply prefix_cons.
      * intros H. split; [by eapply prefix_cons_inv_1 | by eapply prefix_cons_inv_2].
Qed.

Lemma is_prefix_false (d q : path) : is_prefix d q = false ↔ ¬ d `prefix_of` q.
Proof. rewrite <- is_prefix_spec. by destruct (is_prefix d q). Qed.

Lemma Dir_prefix (q : path) : Dir q `prefix_of` q.
Proof.
  unfold Dir. destruct q as [|x q] using rev_ind; [done|].
  rewrite removelast_last. by apply prefix_app_r.
Qed.

Lemma Dir_snoc (p : path) (x : string) : Dir (p ++ [x]) = p.
Proof. apply removelast_last. Qed.

Lemma prefix_of_Dir (d q : path) : d `prefix_of` q → d ≠ q → d `prefix_of` Dir q.
Proof.
  intros [k ->] Hne. destruct k as [|x k] using rev_ind.
  - by rewrite app_nil_r in Hne.
  - rewrite app_assoc, Dir_snoc. by apply prefix_app_r.
Qed.

Lemma prefix_snoc_inv (q p : path) (x : string) :
  q `prefix_of` p ++ [x] → q `prefix_of` p ∨ q = p ++ [x].
Proof.
  intros H. destruct (decide (q = p ++ [x])) as [|Hne]; [by right | left].
  apply prefix_of_Dir in H; [|done]. by rewrite Dir_snoc in H.
Qed.

Lemma split_slash_nonempty (s : string) : split_slash s ≠ [].
Proof.
  destruct s as [|c s]; simpl; [done|].
  destruct (Ascii.eqb c "/"%char); [done|]. by destruct (split_slash s).
Qed.

Lemma split_slash_single (s e : string) : split_slash s = [e] → e = s.
Proof.
  revert e; induction s as [|c s IH]; intros e; simpl.
  - congruence.
  - pose proof (split_slash_nonempty s) as Hne.
    destruct (Ascii.eqb c "/"%char).
    + intros H. destruct (split_slash s); simplify_eq.
    + destruct (split_slash s) as [|x [|y l]] eqn:E; intros H; simplify_eq.
      by rewrite (IH x eq_refl).
Qed.

Lemma Join_plain (dir : path) (n : string) :
  plain_name n = true → Join dir n = dir ++ [n].
Proof.
  unfold plain_name, Join. destruct (split_slash n) as [|e [|? ?]] eqn:E; try done.
  apply split_slash_single in E as ->. intros H. simpl.
  destruct (String.eqb n ""), (String.eqb n "."), (String.eqb n ".."); try done.
  simpl. by rewrite rev_involutive.
Qed.

Lemma path_string_not_catalog (p : path) : HasPrefix (path_string p) "catalog://" = false.
Proof. by destruct p. Qed.

Lemma substring_all (s : string) : String.substring 0 (String.length s) s = s.
Proof. induction s; simpl; congruence. Qed.

(** [filepath.Join], [filepath.Abs] and [filepath.Ext] on the shapes the
    installer meets. *)
Example Join_climbs :
  Join ["root"; ".ssot"; "gitspace"; "plugins"; "evil"] "../../etc/passwd"
  = ["root"; ".ssot"; "gitspace"; "etc"; "passwd"].
Proof. reflexivity. Qed.

Example Join_stops_at_root : Join ["a"] "../../../x//./y/" = ["x"; "y"].
Proof. reflexivity. Qed.

Example Abs_relative : Abs (Ok ["work"]) "src/hello" = Ok ["work"; "src"; "hello"].
Proof. reflexivity. Qed.

Example Abs_absolute : Abs (Err (External "no cwd")) "/tmp//x/../y" = Ok ["tmp"; "y"].
Proof. reflexivity. Qed.

Example Ext_last_dot : Ext ["a"; "b.tar.toml"] = ".toml" ∧ Ext ["a.toml"; "b"] = "".
Proof. split; reflexivity. Qed.

(** ** Facts about the [os] operations *)

Lemma remove_tree_lookup (p q : path) (s : FS) :
  remove_tree p s !! q = if is_prefix p q then None else s !! q.
Proof.
  unfold remove_tree. destruct (is_prefix p q) eqn:E.
  - apply map_lookup_filter_None. right. intros x _. simpl. congruence.
  - destruct (s !! q) as [x|] eqn:Hq.
    + apply map_lookup_filter_Some. done.
    + apply map_lookup_filter_None. by left.
Qed.

Lemma remove_tree_below (p q : path) (s : FS) :
  p `prefix_of` q → remove_tree p s !! q = None.
Proof. intros H. rewrite remove_tree_lookup. apply is_prefix_spec in H. by rewrite H. Qed.

Lemma remove_tree_agree (p : path) (s t : FS) :
  (∀ q, ¬ p `prefix_of` q → s !! q = t !! q) → remove_tree p s = remove_tree p t.
Proof.
  intros H. apply map_eq. intros q. rewrite !remove_tree_lookup.
  destruct (is_prefix p q) eqn:E; [done|]. apply H. by apply is_prefix_false.
Qed.

(** What [MkdirAll] can do to one path: nothing, or create a directory on
    the way to its argument. *)
Lemma mkdirAll_from_change (pre rest : path) (perm : N) (s s' : FS) (r : result unit) :
  mkdirAll_from pre rest perm s = (r, s') →
  ∀ q, s' !! q = s !! q
       ∨ (s !! q = None ∧ s' !! q = Some (DirNode perm)
          ∧ q `prefix_of` pre ++ rest ∧ pre `prefix_of` q ∧ q ≠ pre).
Proof.
  revert pre s. induction rest as [|c rest IH]; intros pre s; simpl.
  - intros [= <- <-] q. by left.
  - assert (Hassoc : (pre ++ [c]) ++ rest = pre ++ c :: rest) by by rewrite <- app_assoc.
    assert (Hgo : ∀ q, pre ++ [c] `prefix_of` q → pre `prefix_of` q ∧ q ≠ pre).
    { intros q Hq. split; [etrans; [|exact Hq]; by apply prefix_app_r|].
      intros ->. by apply (prefix_snoc_not pre c). }
    destruct (s !! (pre ++ [c])) as [[pm|data pm]|] eqn:E.
    + intros H q. destruct (IH _ _ H q) as [?|(?&?&Hq3&Hq4&?)]; [by left|right].
      rewrite Hassoc in Hq3. destruct (Hgo q Hq4). done.
    + intros [= <- <-] q. by left.
    + intros H q. destruct (IH _ _ H q) as [Hq|(Hq1&Hq2&Hq3&Hq4&Hq5)].
      * destruct (decide (q = pre ++ [c])) as [->|Hq'].
        -- rewrite lookup_insert_eq in Hq. right.
           destruct (Hgo (pre ++ [c])) as [? ?]; [done|]. repeat split; try done.
           apply prefix_app. by apply prefix_cons, prefix_nil.
        -- rewrite lookup_insert_ne in Hq by done. by left.
      * right. rewrite lookup_insert_ne in Hq1 by done.
        rewrite Hassoc in Hq3. destruct (Hgo q Hq4). done.
Qed.

Lemma MkdirAll_change (p : path) (perm : N) (s s' : FS) (r : result unit) :
  MkdirAll p perm s = (r, s') →
  ∀ q, s' !! q = s !! q
       ∨ (s !! q = None ∧ s' !! q = Some (DirNode perm) ∧ q `prefix_of` p ∧ q ≠ []).
Proof.
  intros H q. destruct (mkdirAll_from_change _ _ _ _ _ _ H q) as [?|(?&?&?&?&?)];
    [by left|by right].
Qed.

Lemma mkdirAll_from_ok (pre rest : path) (perm : N) (s s' : FS) :
  mkdirAll_from pre rest perm s = (Ok tt, s') →
  ∀ q, q `prefix_of` pre ++ rest → pre `prefix_of` q → q ≠ pre →
       ∃ pm, s' !! q = Some (DirNode pm).
Proof.
  revert pre s. induction rest as [|c rest IH]; intros pre s; simpl.
  - intros _ q Hq Hpre Hne. rewrite app_nil_r in Hq. destruct Hne. apply prefix_length_eq; [done|]. by apply prefix_length.
  - intros H q Hq Hpre Hne.
    assert (Hq' : pre ++ [c] `prefix_of` q).
    { destruct Hpre as [k ->]. apply prefix_app_inv in Hq.
      destruct k as [|x k]; [by rewrite app_nil_r in Hne|].
      apply prefix_cons_inv_1 in Hq as ->. apply prefix_app. by apply prefix_cons, prefix_nil. }
    rewrite (assoc_L (++) pre [c] rest : pre ++ c :: rest = (pre ++ [c]) ++ rest) in Hq.
    destruct (decide (q = pre ++ [c])) as [->|Hq''].
    + destruct (s !! (pre ++ [c])) as [[pm|data pm]|] eqn:E; [| done |].
      * destruct (mkdirAll_from_change _ _ _ _ _ _ H (pre ++ [c])) as [->|(?&?&?)]; eauto.
      * destruct (mkdirAll_from_change _ _ _ _ _ _ H (pre ++ [c])) as [->|(Hx&?&?)].
        -- rewrite lookup_insert_eq. eauto.
        -- by rewrite lookup_insert_eq in Hx.
    + destruct (s !! (pre ++ [c])) as [[pm|data pm]|] eqn:E; [| done |]; by eapply IH.
Qed.

Lemma MkdirAll_ok (p : path) (perm : N) (s s' : FS) :
  MkdirAll p perm s = (Ok tt, s') → dirs_to s' p.
Proof.
  intros H q Hq Hne. eapply mkdirAll_from_ok; eauto. apply prefix_nil.
Qed.

Lemma mkdirAll_from_id (pre rest : path) (perm : N) (s : FS) :
  (∀ q, q `prefix_of` pre ++ rest → pre `prefix_of` q → q ≠ pre →
        ∃ pm, s !! q = Some (DirNode pm)) →
  mkdirAll_from pre rest perm s = (Ok tt, s).
Proof.
  revert pre. induction rest as [|c rest IH]; intros pre H; simpl; [done|].
  destruct (H (pre ++ [c])) as [pm ->].
  - apply prefix_app. by apply prefix_cons, prefix_nil.
  - by apply prefix_app_r.
  - intros E. by apply (prefix_snoc_not pre c); rewrite E.
  - apply IH. intros q Hq Hpre Hne. rewrite <- app_assoc in Hq. apply H; [done| |].
    + etrans; [|done]. by apply prefix_app_r.
    + intros ->. by apply (prefix_snoc_not pre c).
Qed.

Lemma MkdirAll_id (p : path) (perm : N) (s : FS) :
  dirs_to s p → MkdirAll p perm s = (Ok tt, s).
Proof. intros H. apply mkdirAll_from_id. intros q Hq _ Hne. by apply H. Qed.

(** ** Facts about [copyFile] and the copy loop *)

(** What one [copyFile] can do to one path: nothing, create a directory
    on the way to the destination, or write the destination file. *)
Lemma copyFile_change (src dst : path) (s s' : FS) (r : result unit) :
  copyFile src dst s = (r, s') →
  ∀ q, s' !! q = s !! q
       ∨ (s !! q = None ∧ s' !! q = Some (DirNode perm_0755)
          ∧ q `prefix_of` Dir dst ∧ q ≠ [])
       ∨ (q = dst ∧ r = Ok tt ∧ ∃ data,
            (s !! q = None ∧ s' !! q = Some (FileNode data perm_0644))
            ∨ (∃ old pm, s !! q = Some (FileNode old pm)
                         ∧ s' !! q = Some (FileNode data pm))).
Proof.
  unfold copyFile. unfold_m.
  destruct (MkdirAll (Dir dst) perm_0755 s) as [[[]|e] s1] eqn:Hmk.
  2:{ intros [= <- <-] q. destruct (MkdirAll_change _ _ _ _ _ Hmk q); [by left|by right; left]. }
  pose proof (MkdirAll_change _ _ _ _ _ Hmk) as Hch.
  unfold ReadFile. destruct (s1 !! src) as [[pm|data pm]|] eqn:Hsrc.
  1,3: intros [= <- <-] q; destruct (Hch q); [by left|by right; left].
  unfold WriteFile. destruct (negb (is_dir s1 (Dir dst))).
  { intros [= <- <-] q; destruct (Hch q); [by left|by right; left]. }
  destruct (s1 !! dst) as [[pm'|old pm']|] eqn:Hdst.
  - intros [= <- <-] q; destruct (Hch q); [by left|by right; left].
  - intros [= <- <-] q. destruct (decide (q = dst)) as [->|Hne].
    + rewrite lookup_insert_eq. right; right. split; [done|]. split; [done|].
      exists data. right. exists old, pm'. split; [|done].
      destruct (Hch dst) as [<-|(?&?&?)]; [done|congruence].
    + rewrite lookup_insert_ne by done. destruct (Hch q); [by left|by right; left].
  - destruct dst as [|d0 dst0] eqn:Edst.
    { intros [= <- <-] q; destruct (Hch q); [by left|by right; left]. }
    rewrite <- Edst in *. intros [= <- <-] q. destruct (decide (q = dst)) as [->|Hne].
    + rewrite lookup_insert_eq. right; right. split; [done|]. split; [done|].
      exists data. left. split; [|done].
      destruct (Hch dst) as [<-|(?&?&?)]; [done|congruence].
    + rewrite lookup_insert_ne by done. destruct (Hch q); [by left|by right; left].
Qed.

Lemma copyFile_extends (src dst : path) (s s' : FS) (r : result unit) :
  copyFile src dst s = (r, s') →
  ∀ q n, s !! q = Some n →
         ∃ n', s' !! q = Some n'
               ∧ match n with
                 | DirNode _ => n' = n
                 | FileNode _ pm => ∃ data, n' = FileNode data pm
                 end.
Proof.
  intros H q n Hq. destruct (copyFile_change _ _ _ _ _ H q) as [Hs|[(?&?)|(->&_&data&[(?&?)|(old&pm&Ho&Hn)])]];
    try congruence.
  - rewrite Hs, Hq. exists n. split; [done|]. destruct n; eauto.
  - rewrite Hq in Ho. simplify_eq. eauto.
Qed.

Lemma copyFile_keeps_files (src dst : path) (s s' : FS) (r : result unit) :
  copyFile src dst s = (r, s') → ∀ q, is_file s q = true → is_file s' q = true.
Proof.
  intros H q. unfold is_file. destruct (s !! q) as [[pm|data pm]|] eqn:E; try done.
  destruct (copyFile_extends _ _ _ _ _ H q _ E) as (n'&->&data'&->). done.
Qed.

Lemma copyFile_keeps_dirs (src dst : path) (s s' : FS) (r : result unit) (p : path) :
  copyFile src dst s = (r, s') → dirs_to s p → dirs_to s' p.
Proof.
  intros H Hd q Hq Hne. destruct (Hd q Hq Hne) as [pm E].
  destruct (copyFile_extends _ _ _ _ _ H q _ E) as (n'&->&->). eauto.
Qed.

(** A successful copy leaves the destination a regular file holding what
    the source held. *)
Lemma copyFile_ok (src dst : path) (s s' : FS) :
  copyFile src dst s = (Ok tt, s') →
  ∃ data pm pm', s !! src = Some (FileNode data pm)
                 ∧ s' !! dst = Some (FileNode data pm').
Proof.
  unfold copyFile. unfold_m.
  destruct (MkdirAll (Dir dst) perm_0755 s) as [[[]|e] s1] eqn:Hmk; [|done].
  pose proof (MkdirAll_change _ _ _ _ _ Hmk src) as Hch.
  unfold ReadFile. destruct (s1 !! src) as [[pm|data pm]|] eqn:Hsrc; try done.
  assert (s !! src = Some (FileNode data pm)) as Hs.
  { destruct Hch as [<-|(?&?&?)]; [done|congruence]. }
  unfold WriteFile. destruct (negb (is_dir s1 (Dir dst))); [done|].
  destruct (s1 !! dst) as [[pm'|old pm']|] eqn:Hdst; [done| |].
  - intros [= <-]. exists data, pm, pm'. by rewrite lookup_insert_eq.
  - destruct dst; [done|]. intros [= <-]. exists data, pm, perm_0644.
    by rewrite lookup_insert_eq.
Qed.

(** A source that is not there makes the copy fail. *)
Lemma copyFile_missing (src dst : path) (s : FS) :
  s !! src = None → ∃ e s', copyFile src dst s = (Err e, s').
Proof.
  intros Hs. unfold copyFile. unfold_m.
  destruct (MkdirAll (Dir dst) perm_0755 s) as [[[]|e] s1] eqn:Hmk; [|eauto].
  pose proof (MkdirAll_change _ _ _ _ _ Hmk src) as Hch.
  unfold ReadFile. destruct (s1 !! src) as [[pm|data pm]|] eqn:Hsrc; eauto.
  destruct Hch as [?|(?&?&?)]; congruence.
Qed.

(** An invariant of every single copy is an invariant of the loop. *)
Lemma copySources_inv (Φ : FS → Prop) (sourceDir pluginDir : path)
    (sources : list Source) :
  (∀ src s r s', src ∈ sources →
     copyFile (Join sourceDir (Path src)) (Join pluginDir (Path src)) s = (r, s') →
     Φ s → Φ s') →
  ∀ s r s', copySources sourceDir pluginDir sources s = (r, s') → Φ s → Φ s'.
Proof.
  induction sources as [|src rest IH]; intros Hstep s r s'; simpl.
  - unfold ret. by intros [= <- <-].
  - unfold_m.
    destruct (copyFile (Join sourceDir (Path src)) (Join pluginDir (Path src)) s)
      as [[[]|e] s1] eqn:Hc.
    + intros H HΦ. eapply IH; [|exact H|].
      * intros src' ? ? ? Hin. apply Hstep. by right.
      * eapply Hstep; [by left|exact Hc|done].
    + intros [= <- <-] HΦ. eapply Hstep; [by left|exact Hc|done].
Qed.

(** After a successful loop every declared destination is a regular file. *)
Lemma copySources_ok_files (sourceDir pluginDir : path)
    (sources : list Source) (s s' : FS) :
  copySources sourceDir pluginDir sources s = (Ok tt, s') →
  ∀ src, src ∈ sources → is_file s' (Join pluginDir (Path src)) = true.
Proof.
  revert s. induction sources as [|src0 rest IH]; intros s; simpl.
  - intros _ src Hin. by apply elem_of_nil in Hin.
  - unfold_m.
    destruct (copyFile (Join sourceDir (Path src0)) (Join pluginDir (Path src0)) s)
      as [[[]|e] s1] eqn:Hc; [|done].
    intros H src [->|Hin]%elem_of_cons; [|by eapply IH].
    destruct (copyFile_ok _ _ _ _ Hc) as (data&pm&pm'&_&Hd).
    eapply (copySources_inv (λ t, is_file t (Join pluginDir (Path src0)) = true)); [|exact H|].
    + intros ? ? ? ? _ Hstep. by eapply copyFile_keeps_files.
    + unfold is_file. by rewrite Hd.
Qed.

(** ** Facts about [copyPlugin] *)

Lemma files_inside_MkdirAll (D p : path) (allowed : path → Prop) (perm : N)
    (t t' : FS) (r : result unit) :
  MkdirAll p perm t = (r, t') → files_inside D allowed t → files_inside D allowed t'.
Proof.
  intros H Hin q data pm Hq Hf.
  destruct (MkdirAll_change _ _ _ _ _ H q) as [E|(_&E&_)]; [|congruence].
  rewrite E in Hf. by eapply Hin.
Qed.

Lemma files_inside_copyFile (D src dst : path) (allowed : path → Prop)
    (t t' : FS) (r : result unit) :
  copyFile src dst t = (r, t') → allowed dst →
  files_inside D allowed t → files_inside D allowed t'.
Proof.
  intros H Hdst Hin q data pm Hq Hf.
  destruct (copyFile_change _ _ _ _ _ H q)
    as [E|[(_&E&_)|(->&_&data'&[(_&E)|(old&pm'&Eo&E)])]]; try congruence.
  - rewrite E in Hf. by eapply Hin.
  - split; [congruence|done].
  - rewrite E in Hf. simplify_eq. split; [|done]. by eapply Hin.
Qed.

Lemma copySources_app (sourceDir pluginDir : path) (pre rest : list Source) (s : FS) :
  copySources sourceDir pluginDir (pre ++ rest) s
  = match copySources sourceDir pluginDir pre s with
    | (Ok _, s1) => copySources sourceDir pluginDir rest s1
    | (Err e, s1) => (Err e, s1)
    end.
Proof.
  revert s. induction pre as [|src pre IH]; intros s; simpl; [done|].
  unfold_m. destruct (copyFile _ _ s) as [[[]|e] s1]; [apply IH|done].
Qed.

Lemma copyPlugin_app (pluginDir manifestPath sourceDir : path)
    (pre rest : list Source) (s : FS) :
  copyPlugin pluginDir manifestPath sourceDir (pre ++ rest) s
  = match copyPlugin pluginDir manifestPath sourceDir pre s with
    | (Ok _, s1) => copySources sourceDir pluginDir rest s1
    | (Err e, s1) => (Err e, s1)
    end.
Proof.
  unfold copyPlugin, RemoveAll. unfold_m.
  destruct (MkdirAll _ _ _) as [[[]|e] s1]; [|done].
  destruct (copyFile _ _ s1) as [[[]|e] s2]; [|done].
  apply copySources_app.
Qed.

(** The regular files inside the destination, however [copyPlugin] ends:
    mode 0644, and nothing but the manifest copy and declared sources. *)
Lemma copyPlugin_files (pluginDir manifestPath sourceDir : path)
    (sources : list Source) (s s' : FS) (r : result unit) :
  copyPlugin pluginDir manifestPath sourceDir sources s = (r, s') →
  files_inside pluginDir
    (λ q, q = Join pluginDir "gitspace-plugin.toml"
          ∨ ∃ src, src ∈ sources ∧ q = Join pluginDir (Path src)) s'.
Proof.
  set (allowed := λ q : path, q = Join pluginDir "gitspace-plugin.toml"
          ∨ ∃ src, src ∈ sources ∧ q = Join pluginDir (Path src)).
  assert (H0 : files_inside pluginDir allowed (remove_tree pluginDir s)).
  { intros q data pm Hq Hf. by rewrite remove_tree_below in Hf. }
  unfold copyPlugin, RemoveAll. unfold_m.
  destruct (MkdirAll _ _ _) as [[[]|e] s1] eqn:Hmk.
  2:{ intros [= <- <-]. by eapply files_inside_MkdirAll. }
  assert (H1 : files_inside pluginDir allowed s1) by by eapply files_inside_MkdirAll.
  destruct (copyFile _ _ s1) as [[[]|e] s2] eqn:Hcp.
  2:{ intros [= <- <-]. eapply files_inside_copyFile; [exact Hcp|by left|done]. }
  assert (H2 : files_inside pluginDir allowed s2).
  { eapply files_inside_copyFile; [exact Hcp|by left|done]. }
  intros H. eapply (copySources_inv (files_inside pluginDir allowed)); [|exact H|done].
  intros src t r' t' Hin Hc. eapply files_inside_copyFile; [exact Hc|].
  right. eauto.
Qed.

(** After a successful [copyPlugin] the manifest copy and every declared
    destination are regular files. *)
Lemma copyPlugin_ok_files (pluginDir manifestPath sourceDir : path)
    (sources : list Source) (s s' : FS) :
  copyPlugin pluginDir manifestPath sourceDir sources s = (Ok tt, s') →
  is_file s' (Join pluginDir "gitspace-plugin.toml") = true
  ∧ ∀ src, src ∈ sources → is_file s' (Join pluginDir (Path src)) = true.
Proof.
  unfold copyPlugin, RemoveAll. unfold_m.
  destruct (MkdirAll _ _ _) as [[[]|e] s1] eqn:Hmk; [|done].
  destruct (copyFile _ _ s1) as [[[]|e] s2] eqn:Hcp; [|done].
  intros H. split; [|by eapply copySources_ok_files].
  destruct (copyFile_ok _ _ _ _ Hcp) as (data&pm&pm'&_&Hd).
  eapply (copySources_inv (λ t, is_file t (Join pluginDir "gitspace-plugin.toml") = true));
    [|exact H|].
  - intros ? ? ? ? _ Hstep. by eapply copyFile_keeps_files.
  - unfold is_file. by rewrite Hd.
Qed.

(** ** Facts about the installer's plumbing *)

Lemma HasPrefix_append (pre s : string) : HasPrefix (pre +:+ s) pre = true.
Proof.
  unfold HasPrefix. induction pre as [|c pre IH]; simpl; [by destruct s|].
  by destruct (Ascii.ascii_dec c c).
Qed.

Lemma TrimPrefix_append (pre s : string) : TrimPrefix (pre +:+ s) pre = s.
Proof.
  unfold TrimPrefix. rewrite HasPrefix_append.
  induction pre as [|c pre IH]; simpl.
  - rewrite Nat.sub_0_r. apply substring_all.
  - exact IH.
Qed.

Lemma loadPluginManifest_state (w : World) (p : path) (s s' : FS) (r : result PluginManifest) :
  loadPluginManifest w p s = (r, s') → s' = s.
Proof.
  unfold loadPluginManifest, ReadFile. unfold_m.
  destruct (s !! p) as [[pm|data pm]|]; try by intros [= _ <-].
  destruct (toml_Unmarshal w data); by intros [= _ <-].
Qed.

(** The manifest is whatever the decoder makes of the file: nothing is
    checked afterwards. *)
Lemma loadPluginManifest_accepts (w : World) (p : path) (s : FS)
    (data : string) (pm : N) (m : PluginManifest) :
  s !! p = Some (FileNode data pm) → toml_Unmarshal w data = Ok m →
  loadPluginManifest w p s = (Ok m, s).
Proof.
  intros Hp Hm. unfold loadPluginManifest, ReadFile. unfold_m. by rewrite Hp, Hm.
Qed.

Lemma getPluginsDir_extends (w : World) (s s' : FS) (r : result path) :
  getPluginsDir w s = (r, s') → ∀ q n, s !! q = Some n → s' !! q = Some n.
Proof.
  unfold getPluginsDir. destruct (UserHomeDir w) as [home|e]; unfold_m.
  2:{ by intros [= _ <-]. }
  destruct (MkdirAll _ perm_0755 s) as [[[]|e] s1] eqn:Hmk; intros [= _ <-] q n Hq;
    destruct (MkdirAll_change _ _ _ _ _ Hmk q) as [->|(?&?)]; congruence.
Qed.

Lemma resolveLocal_state (w : World) (source : string) (s s' : FS) (r : result (path * path)) :
  resolveLocal w source s = (r, s') → s' = s.
Proof.
  unfold resolveLocal, Stat.
  destruct (Abs (Getwd w) source) as [a|e]; unfold_m; [|by intros [= _ <-]].
  destruct (is_dir s a).
  { by intros [= _ <-]. }
  destruct (is_file s a); [|by intros [= _ <-]].
  destruct (String.eqb _ _); by intros [= _ <-].
Qed.

(** [installPlugin] on a source that is neither a catalog reference nor a
    URL. *)
Lemma installPlugin_local (w : World) (source : string) (s : FS) :
  HasPrefix source "catalog://" = false →
  HasPrefix source "http://" = false →
  HasPrefix source "https://" = false →
  installPlugin w source s =
    match getPluginsDir w s with
    | (Err e, sa) => (Err (Wrapf "failed to get plugins directory" e), sa)
    | (Ok pluginsDir, sa) =>
        match resolveLocal w source sa with
        | (Err e, sb) => (Err e, sb)
        | (Ok (manifestPath, sourceDir), sb) =>
            installManifest w pluginsDir manifestPath sourceDir sb
        end
    end.
Proof.
  intros Hc Hh Hs. unfold installPlugin, installPlugin_body. unfold_m.
  destruct (getPluginsDir w s) as [[P|e] sa]; [|done].
  rewrite Hc, Hh, Hs. simpl.
  by destruct (resolveLocal w source sa) as [[[mp sd]|e] sb].
Qed.

(** The recursive equation of the source: the [installPlugin] that
    [installFromGitspaceCatalog] calls is [installPlugin] itself. *)
Lemma installPlugin_unfold (w : World) (source : string) (s : FS) :
  installPlugin w source s
  = installPlugin_body w (installFromGitspaceCatalog w (installPlugin w)) source s.
Proof.
  unfold installPlugin at 1. unfold installPlugin_body at 1 3. unfold_m.
  destruct (getPluginsDir w s) as [[P|e] sa]; [|done].
  destruct (HasPrefix source "catalog://"); [|done].
  unfold installFromGitspaceCatalog.
  destruct (FetchGitspaceCatalog w _ _) as [cat|e]; [|done].
  destruct (Plugins cat !! _) as [plugin|]; [|done].
  destruct (String.eqb _ _); [done|]. unfold_m.
  destruct (MkdirTemp w sa) as [[tmp|e] s1]; [|done].
  destruct (downloadFile w _ _ s1) as [[[]|e] s2]; [|done].
  destruct (loadPluginManifest w _ s2) as [[m|e] s3]; [|done].
  destruct (downloadSources w _ _ _ s3) as [[[]|e] s4]; [|done].
  unfold installPlugin, installPlugin_body. unfold_m.
  destruct (getPluginsDir w s4) as [[P'|e] s5]; [|done].
  by rewrite path_string_not_catalog.
Qed.

(** ** Claims *)

(** C9.  If the manifest of a local install source cannot be loaded or
    decoded, [installPlugin] returns that error, wrapped, and the only
    thing it has done is to make sure the plugins directory exists: every
    entry of the file system, an installed plugin of the same name
    included, is as before.  In general [installManifest] returns the
    load error without changing anything: loading comes before the
    removal of the destination. *)
Theorem manifest_failure_before_destination (w : World) (source : string)
    (s sa : FS) (pluginsDir manifestPath sourceDir : path) (e : error) :
  HasPrefix source "catalog://" = false →
  HasPrefix source "http://" = false →
  HasPrefix source "https://" = false →
  getPluginsDir w s = (Ok pluginsDir, sa) →
  resolveLocal w source sa = (Ok (manifestPath, sourceDir), sa) →
  loadPluginManifest w manifestPath sa = (Err e, sa) →
  installPlugin w source s = (Err (Wrapf "failed to load manifest" e), sa)
  ∧ (∀ q n, s !! q = Some n → sa !! q = Some n)
  ∧ (∀ P mp sd t e',
       (loadPluginManifest w mp t).1 = Err e' →
       installManifest w P mp sd t = (Err (Wrapf "failed to load manifest" e'), t)).
Proof.
  intros Hc Hh Hs Hget Hres Hload. split; [|split].
  - rewrite installPlugin_local by done. rewrite Hget, Hres.
    unfold installManifest. unfold_m. by rewrite Hload.
  - by eapply getPluginsDir_extends.
  - intros P mp sd t e' Ht. unfold installManifest. unfold_m.
    destruct (loadPluginManifest w mp t) as [r t'] eqn:E.
    apply loadPluginManifest_state in E as ->. simpl in Ht. by subst r.
Qed.

Lemma manifest_failure_before_destination_witness :
  installPlugin demo_world "src" demo_fs
  = (Err (Wrapf "failed to load manifest"
            (Wrapf "failed to read manifest file"
               (ENOENT ["work"; "src"; "gitspace-plugin.toml"]))), demo_ready).
Proof.
  apply (manifest_failure_before_destination demo_world "src" demo_fs demo_ready
           demo_plugins ["work"; "src"; "gitspace-plugin.toml"] ["work"; "src"]);
    by_running.
Defined.

(** C5.  For a name that the fetched catalog does not list,
    [installPlugin] on [catalog://name] fails with the not-found error
    and leaves the file system as [getPluginsDir] left it;
    [installFromGitspaceCatalog] itself returns before [os.MkdirTemp], so
    it changes nothing: no temporary directory is created. *)
Theorem catalog_entry_missing (w : World) (name : string) (s sa : FS)
    (pluginsDir : path) (catalog : GitspaceCatalog) :
  getPluginsDir w s = (Ok pluginsDir, sa) →
  FetchGitspaceCatalog w "ssotops" "gitspace-catalog" = Ok catalog →
  Plugins catalog !! name = None →
  installPlugin w ("catalog://" +:+ name) s
  = (Err (Errorf ("plugin " +:+ name +:+ " not found in Gitspace Catalog")), sa)
  ∧ (∀ install t,
       installFromGitspaceCatalog w install name t
       = (Err (Errorf ("plugin " +:+ name +:+ " not found in Gitspace Catalog")), t)).
Proof.
  intros Hget Hfetch Hnone.
  assert (Hcat : ∀ install t,
     installFromGitspaceCatalog w install name t
     = (Err (Errorf ("plugin " +:+ name +:+ " not found in Gitspace Catalog")), t)).
  { intros install t. unfold installFromGitspaceCatalog. by rewrite Hfetch, Hnone. }
  split; [|done].
  unfold installPlugin, installPlugin_body. unfold_m. rewrite Hget.
  rewrite HasPrefix_append, TrimPrefix_append. apply Hcat.
Qed.

Lemma catalog_entry_missing_witness :
  Plugins demo_catalog !! "nonexistent" = None
  ∧ installPlugin demo_world "catalog://nonexistent" demo_fs
    = (Err (Errorf "plugin nonexistent not found in Gitspace Catalog"), demo_ready).
Proof.
  split; [by_running|].
  apply (catalog_entry_missing demo_world "nonexistent" demo_fs demo_ready
           demo_plugins demo_catalog); by_running.
Defined.

(** C7.  A source that is neither a catalog reference nor a URL is
    made absolute ([absSource]).  A directory is installed
    from [dir/gitspace-plugin.toml] with [dir] as source root; a file
    whose extension is [.toml] is the manifest, its parent the source
    root; any other file, and a path that does not exist, make
    [installPlugin] fail, the file system being as [getPluginsDir] left
    it. *)
Theorem local_source_shapes (w : World) (source : string) (s sa : FS)
    (pluginsDir absSource : path) :
  HasPrefix source "catalog://" = false →
  HasPrefix source "http://" = false →
  HasPrefix source "https://" = false →
  getPluginsDir w s = (Ok pluginsDir, sa) →
  Abs (Getwd w) source = Ok absSource →
  (is_dir sa absSource = true →
     installPlugin w source s
     = installManifest w pluginsDir (Join absSource "gitspace-plugin.toml") absSource sa)
  ∧ (is_dir sa absSource = false → is_file sa absSource = true →
     Ext absSource = ".toml" →
     installPlugin w source s = installManifest w pluginsDir absSource (Dir absSource) sa)
  ∧ (is_dir sa absSource = false → is_file sa absSource = true →
     Ext absSource ≠ ".toml" →
     installPlugin w source s
     = (Err (Errorf "invalid source: must be a directory or .toml file"), sa))
  ∧ (is_dir sa absSource = false → is_file sa absSource = false →
     installPlugin w source s
     = (Err (Wrapf "failed to get source info" (ENOENT absSource)), sa)).
Proof.
  intros Hc Hh Hs Hget Habs.
  rewrite installPlugin_local by done. rewrite Hget.
  unfold resolveLocal, Stat. rewrite Habs. unfold_m.
  repeat split.
  - by intros ->.
  - intros -> -> ->. done.
  - intros -> -> Hne. apply String.eqb_neq in Hne. by rewrite Hne.
  - by intros -> ->.
Qed.

Lemma local_source_shapes_witness :
  installPlugin demo_world "src/hello" demo_fs
  = installManifest demo_world demo_plugins
      (Join ["work"; "src"; "hello"] "gitspace-plugin.toml") ["work"; "src"; "hello"]
      demo_ready.
Proof.
  apply (local_source_shapes demo_world "src/hello" demo_fs demo_ready demo_plugins
           ["work"; "src"; "hello"]); by_running.
Defined.

Example local_source_rejected :
  (installPlugin demo_world "notes.txt" demo_fs).1
  = Err (Errorf "invalid source: must be a directory or .toml file")
  ∧ (installPlugin demo_world "missing" demo_fs).1
    = Err (Wrapf "failed to get source info" (ENOENT ["work"; "missing"])).
Proof. split; vm_compute; reflexivity. Qed.

(** C1 (as amended).  A manifest is accepted whatever its source paths
    are: [loadPluginManifest] returns what the decoder produced.  For a
    source whose joined destination [filepath.Join(pluginDir, path)] lies
    outside [pluginDir], the copy of that source changes nothing inside
    [pluginDir], and when it succeeds the file is at that outside
    destination. *)
Theorem escaping_source_accepted (w : World) (manifestPath : path) (s : FS)
    (data : string) (pm : N) (m : PluginManifest) :
  s !! manifestPath = Some (FileNode data pm) →
  toml_Unmarshal w data = Ok m →
  loadPluginManifest w manifestPath s = (Ok m, s)
  ∧ ∀ src sourceDir pluginDir t r t',
      src ∈ Sources m →
      is_prefix pluginDir (Join pluginDir (Path src)) = false →
      copyFile (Join sourceDir (Path src)) (Join pluginDir (Path src)) t = (r, t') →
      (∀ q, is_prefix pluginDir q = true → t' !! q = t !! q)
      ∧ (r = Ok tt →
         ∃ content pm1 pm2,
           t !! Join sourceDir (Path src) = Some (FileNode content pm1)
           ∧ t' !! Join pluginDir (Path src) = Some (FileNode content pm2)).
Proof.
  intros Hp Hm. split; [by eapply loadPluginManifest_accepts|].
  intros src sd D t r t' _ Hout Hcopy. apply is_prefix_false in Hout. split.
  - intros q Hq%is_prefix_spec.
    destruct (copyFile_change _ _ _ _ _ Hcopy q) as [?|[(_&_&Hpre&_)|(->&_)]]; [done| |done].
    destruct Hout. etrans; [exact Hq|]. etrans; [exact Hpre|]. apply Dir_prefix.
  - intros ->. by apply copyFile_ok.
Qed.

Lemma escaping_source_accepted_witness :
  loadPluginManifest demo_world ["work"; "src"; "evil"; "gitspace-plugin.toml"] demo_ready
  = (Ok evil_manifest, demo_ready).
Proof.
  apply (escaping_source_accepted demo_world
           ["work"; "src"; "evil"; "gitspace-plugin.toml"] demo_ready evil_toml perm_0644
           evil_manifest); by_running.
Defined.

(** C1, the claim as stated fails: the manifest declaring
    [../../etc/passwd] is loaded without error, the install succeeds, and
    the file is copied to [/root/.ssot/gitspace/etc/passwd]. *)
Lemma escaping_source_installed :
  Path <$> Sources evil_manifest = ["../../etc/passwd"]
  ∧ (loadPluginManifest demo_world ["work"; "src"; "evil"; "gitspace-plugin.toml"]
       demo_fs).1 = Ok evil_manifest
  ∧ (installPlugin demo_world "src/evil" demo_fs).1 = Ok tt
  ∧ demo_fs !! ["root"; ".ssot"; "gitspace"; "etc"; "passwd"] = None
  ∧ (installPlugin demo_world "src/evil" demo_fs).2
      !! ["root"; ".ssot"; "gitspace"; "etc"; "passwd"]
    = Some (FileNode "root:x:0:0" perm_0644).
Proof. repeat split; vm_compute; reflexivity. Qed.

Lemma copySources_erase (sourceDir pluginDir : path) (sources : list Source) (s : FS) :
  copySources sourceDir pluginDir (map erase_entry_point sources) s
  = copySources sourceDir pluginDir sources s.
Proof.
  revert s. induction sources as [|src rest IH]; intros s; simpl; [done|].
  unfold_m. destruct (copyFile _ _ s) as [[[]|e] s1]; [apply IH|done].
Qed.

(** C3 (as amended).  A decoded manifest is accepted as it is, an empty
    sources list or an empty [entry_point] included: [loadPluginManifest]
    returns it, and [installManifest] goes on to copy.  The [entry_point]
    values play no part in the installation (blanking them all gives the
    same run), and with an empty sources list only the manifest is
    copied. *)
Theorem unvalidated_manifest_accepted (w : World)
    (pluginsDir manifestPath sourceDir : path) (s : FS)
    (data : string) (pm : N) (m : PluginManifest) :
  s !! manifestPath = Some (FileNode data pm) →
  toml_Unmarshal w data = Ok m →
  loadPluginManifest w manifestPath s = (Ok m, s)
  ∧ installManifest (with_decoder w (decode_erased w)) pluginsDir manifestPath sourceDir s
    = installManifest w pluginsDir manifestPath sourceDir s
  ∧ (Sources m = [] →
     installManifest w pluginsDir manifestPath sourceDir s
     = (let pluginDir := Join pluginsDir (Name m) in
        wrap "failed to remove existing plugin directory" (RemoveAll pluginDir) ;;
        wrap "failed to create plugin directory" (MkdirAll pluginDir perm_0755) ;;
        wrap "failed to copy manifest file"
          (copyFile manifestPath (Join pluginDir "gitspace-plugin.toml")) ;;
        goModSetup w pluginDir (Name m)) s).
Proof.
  intros Hp Hm.
  pose proof (loadPluginManifest_accepts w _ _ _ _ _ Hp Hm) as Hload.
  split; [done|]. split.
  - unfold installManifest, loadPluginManifest, ReadFile. unfold_m. rewrite Hp.
    simpl. unfold decode_erased. rewrite Hm. simpl.
    unfold copyPlugin, RemoveAll. unfold_m.
    destruct (MkdirAll _ _ _) as [[[]|e] s1]; [|done].
    destruct (copyFile _ _ s1) as [[[]|e] s2]; [|done].
    rewrite copySources_erase.
    by destruct (copySources _ _ _ s2) as [[[]|e] s3].
  - intros Hnil. unfold installManifest. unfold_m. rewrite Hload.
    unfold copyPlugin. rewrite Hnil. simpl. unfold RemoveAll. unfold_m.
    destruct (MkdirAll _ _ _) as [[[]|e] s1]; [|done].
    by destruct (copyFile _ _ s1) as [[[]|e] s2].
Qed.

Lemma unvalidated_manifest_accepted_witness :
  loadPluginManifest demo_world ["work"; "src"; "bare"; "gitspace-plugin.toml"] demo_ready
  = (Ok bare_manifest, demo_ready).
Proof.
  apply (unvalidated_manifest_accepted demo_world demo_plugins
           ["work"; "src"; "bare"; "gitspace-plugin.toml"] ["work"; "src"; "bare"]
           demo_ready bare_toml perm_0644 bare_manifest); by_running.
Defined.

(** C3, the claim as stated fails: a manifest with no sources and a
    manifest with an empty [entry_point] are both loaded without error
    and installed. *)
Lemma unvalidated_manifest_installed :
  Sources bare_manifest = []
  ∧ (loadPluginManifest demo_world ["work"; "src"; "bare"; "gitspace-plugin.toml"]
       demo_fs).1 = Ok bare_manifest
  ∧ (installPlugin demo_world "src/bare" demo_fs).1 = Ok tt
  ∧ EntryPoint <$> Sources mute_manifest = [""]
  ∧ (loadPluginManifest demo_world ["work"; "src"; "mute"; "gitspace-plugin.toml"]
       demo_fs).1 = Ok mute_manifest
  ∧ (installPlugin demo_world "src/mute" demo_fs).1 = Ok tt.
Proof. repeat split; vm_compute; reflexivity. Qed.

(** C2 (as amended).  On a successful install, when the copy steps end
    the regular files inside the destination directory are exactly the
    manifest copy and the declared sources (those whose joined path lies
    inside it); the go-module step then runs on that directory, and what
    it writes there (a [go.mod] when none was copied) stays. *)
Theorem installed_files_exact (w : World) (pluginsDir manifestPath sourceDir : path)
    (s s' : FS) (m : PluginManifest) :
  (loadPluginManifest w manifestPath s).1 = Ok m →
  installManifest w pluginsDir manifestPath sourceDir s = (Ok tt, s') →
  let pluginDir := Join pluginsDir (Name m) in
  ∃ sc,
    copyPlugin pluginDir manifestPath sourceDir (Sources m) s = (Ok tt, sc)
    ∧ goModSetup w pluginDir (Name m) sc = (Ok tt, s')
    ∧ (∀ q, is_prefix pluginDir q = true →
         (is_file sc q = true
          ↔ q = Join pluginDir "gitspace-plugin.toml"
            ∨ ∃ src, src ∈ Sources m ∧ q = Join pluginDir (Path src))).
Proof.
  intros Hload Hinst pluginDir. unfold installManifest in Hinst. unfold_m.
  destruct (loadPluginManifest w manifestPath s) as [[m'|e] s0] eqn:El; [|done].
  apply loadPluginManifest_state in El as ->. simpl in Hload. simplify_eq.
  fold pluginDir in Hinst.
  destruct (copyPlugin pluginDir manifestPath sourceDir (Sources m) s)
    as [[[]|e] sc] eqn:Ec; [|done].
  exists sc. split; [done|]. split; [done|].
  intros q Hq%is_prefix_spec. split.
  - unfold is_file. destruct (sc !! q) as [[pm|data pm]|] eqn:Eq; try done. intros _.
    by destruct (copyPlugin_files _ _ _ _ _ _ _ Ec q data pm Hq Eq).
  - destruct (copyPlugin_ok_files _ _ _ _ _ _ Ec) as [Hm Hs].
    intros [->|(src&Hin&->)]; [done|by apply Hs].
Qed.

Lemma installed_files_exact_witness :
  let mp := ["work"; "src"; "hello"; "gitspace-plugin.toml"] in
  let sd := ["work"; "src"; "hello"] in
  let pluginDir := Join demo_plugins (Name hello_manifest) in
  ∃ sc,
    copyPlugin pluginDir mp sd (Sources hello_manifest) demo_ready = (Ok tt, sc)
    ∧ goModSetup demo_world pluginDir (Name hello_manifest) sc
      = (Ok tt, (installManifest demo_world demo_plugins mp sd demo_ready).2)
    ∧ (∀ q, is_prefix pluginDir q = true →
         (is_file sc q = true
          ↔ q = Join pluginDir "gitspace-plugin.toml"
            ∨ ∃ src, src ∈ Sources hello_manifest ∧ q = Join pluginDir (Path src))).
Proof.
  intros mp sd.
  apply (installed_files_exact demo_world demo_plugins mp sd demo_ready
           (installManifest demo_world demo_plugins mp sd demo_ready).2 hello_manifest);
    by_running.
Defined.

(** C2, the claim as stated fails: after a successful install of
    [hello], whose manifest declares [main.go] only, the destination
    holds a [go.mod] as well. *)
Lemma installed_files_include_go_mod :
  Path <$> Sources hello_manifest = ["main.go"]
  ∧ (installPlugin demo_world "src/hello" demo_fs).1 = Ok tt
  ∧ is_file (installPlugin demo_world "src/hello" demo_fs).2
      (demo_plugins ++ ["hello"; "go.mod"]) = true
  ∧ demo_plugins ++ ["hello"; "go.mod"]
    ≠ Join (demo_plugins ++ ["hello"]) "gitspace-plugin.toml"
  ∧ demo_plugins ++ ["hello"; "go.mod"] ≠ Join (demo_plugins ++ ["hello"]) "main.go".
Proof. repeat split; vm_compute; (reflexivity || discriminate). Qed.

Lemma copyFile_fresh (src dst : path) (s s' : FS) :
  copyFile src dst s = (Ok tt, s') → s !! dst = None →
  ∃ data pm, s !! src = Some (FileNode data pm)
             ∧ s' !! dst = Some (FileNode data perm_0644).
Proof.
  intros H Hd. destruct (copyFile_ok _ _ _ _ H) as (data&pm&pm'&Hs&Hd').
  exists data, pm. split; [done|].
  destruct (copyFile_change _ _ _ _ _ H dst)
    as [E|[(_&E&_)|(_&_&data'&[(_&E)|(old&pm''&Eo&E)])]]; congruence.
Qed.

(** C10.  However [copyPlugin] ends, every regular file inside the
    destination directory has mode 0644, whatever the modes in the source
    tree were; a single successful [copyFile] onto a path that did not
    exist creates it with the content of the source and mode 0644,
    whatever the mode [pm] of the source. *)
Theorem copied_files_mode_0644 (pluginDir manifestPath sourceDir : path)
    (sources : list Source) (s s' : FS) (r : result unit) :
  copyPlugin pluginDir manifestPath sourceDir sources s = (r, s') →
  (∀ q data pm, is_prefix pluginDir q = true →
     s' !! q = Some (FileNode data pm) → pm = perm_0644)
  ∧ (∀ src dst t t', copyFile src dst t = (Ok tt, t') → t !! dst = None →
       ∃ data pm, t !! src = Some (FileNode data pm)
                  ∧ t' !! dst = Some (FileNode data perm_0644)).
Proof.
  intros H. split.
  - intros q data pm Hq%is_prefix_spec Hf.
    by destruct (copyPlugin_files _ _ _ _ _ _ _ H q data pm Hq Hf).
  - intros src dst t t'. apply copyFile_fresh.
Qed.

Lemma copied_files_mode_0644_witness :
  let run :=
    copyPlugin (Join demo_plugins "hello") ["work"; "src"; "hello"; "gitspace-plugin.toml"]
      ["work"; "src"; "hello"] (Sources hello_manifest) demo_ready in
  demo_ready !! ["work"; "src"; "hello"; "main.go"]
    = Some (FileNode "package main" perm_0755)
  ∧ run.1 = Ok tt
  ∧ run.2 !! (demo_plugins ++ ["hello"; "main.go"])
    = Some (FileNode "package main" perm_0644)
  ∧ (∀ q data pm, is_prefix (Join demo_plugins "hello") q = true →
       run.2 !! q = Some (FileNode data pm) → pm = perm_0644).
Proof.
  intros run. split; [by_running|]. split; [by_running|]. split; [by_running|].
  apply (copied_files_mode_0644 (Join demo_plugins "hello")
           ["work"; "src"; "hello"; "gitspace-plugin.toml"] ["work"; "src"; "hello"]
           (Sources hello_manifest) demo_ready run.2 run.1).
  apply surjective_pairing.
Defined.

(** C8.  When the copy loop reaches a declared source whose file is not
    there, [installManifest] fails with an error naming that source's
    path, and nothing is rolled back: every entry present at that point
    is still there, the manifest copy and the sources copied before
    included. *)
Theorem missing_source_aborts (w : World) (pluginsDir manifestPath sourceDir : path)
    (s sc : FS) (m : PluginManifest) (pre post : list Source) (src : Source) :
  (loadPluginManifest w manifestPath s).1 = Ok m →
  Sources m = pre ++ src :: post →
  let pluginDir := Join pluginsDir (Name m) in
  copyPlugin pluginDir manifestPath sourceDir pre s = (Ok tt, sc) →
  sc !! Join sourceDir (Path src) = None →
  ∃ e s',
    installManifest w pluginsDir manifestPath sourceDir s
    = (Err (Wrapf ("failed to copy plugin file " +:+ Path src) e), s')
    ∧ (∀ q n, sc !! q = Some n → s' !! q = Some n)
    ∧ is_file s' (Join pluginDir "gitspace-plugin.toml") = true
    ∧ (∀ src', src' ∈ pre → is_file s' (Join pluginDir (Path src')) = true).
Proof.
  intros Hload Hsrcs pluginDir Hpre Hmiss.
  destruct (copyFile_missing _ (Join pluginDir (Path src)) _ Hmiss) as (e&s'&Hc).
  exists e, s'.
  assert (Hkeep : ∀ q n, sc !! q = Some n → s' !! q = Some n).
  { intros q n Hq.
    destruct (copyFile_change _ _ _ _ _ Hc q) as [E|[(E&_)|(_&?&_)]]; congruence. }
  destruct (copyPlugin_ok_files _ _ _ _ _ _ Hpre) as [Hm Hs].
  assert (Hfile : ∀ q, is_file sc q = true → is_file s' q = true).
  { intros q. unfold is_file. destruct (sc !! q) as [n|] eqn:E; [|done].
    by rewrite (Hkeep _ _ E). }
  split; [|split; [done|split; [by apply Hfile|intros; by apply Hfile, Hs]]].
  unfold installManifest. unfold_m.
  destruct (loadPluginManifest w manifestPath s) as [[m'|e'] s0] eqn:El; [|done].
  apply loadPluginManifest_state in El as ->. simpl in Hload. simplify_eq.
  fold pluginDir. rewrite Hsrcs, copyPlugin_app, Hpre. simpl. unfold_m.
  by rewrite Hc.
Qed.

Lemma missing_source_aborts_witness :
  let mp := ["work"; "src"; "lost"; "gitspace-plugin.toml"] in
  let sd := ["work"; "src"; "lost"] in
  let pluginDir := Join demo_plugins (Name lost_manifest) in
  let sc := (copyPlugin pluginDir mp sd [mk_source "a.go" "main"] demo_ready).2 in
  ∃ e s',
    installManifest demo_world demo_plugins mp sd demo_ready
    = (Err (Wrapf ("failed to copy plugin file " +:+ Path (mk_source "b.go" "main")) e), s')
    ∧ (∀ q n, sc !! q = Some n → s' !! q = Some n)
    ∧ is_file s' (Join pluginDir "gitspace-plugin.toml") = true
    ∧ (∀ src', src' ∈ [mk_source "a.go" "main"] →
         is_file s' (Join pluginDir (Path src')) = true).
Proof.
  intros mp sd pluginDir sc.
  apply (missing_source_aborts demo_world demo_plugins mp sd demo_ready sc lost_manifest
           [mk_source "a.go" "main"] [] (mk_source "b.go" "main")); by_running.
Defined.

(** ** Facts about the catalog downloads *)

Lemma downloadFile_http_fails (w : World) (url : string) (p : path) (t : FS) :
  http_fails w url = true → ∃ e, downloadFile w url p t = (Err e, t).
Proof.
  unfold http_fails, downloadFile. destruct (http_Get w url) as [resp|e]; [|eauto].
  intros ->. eauto.
Qed.

Lemma downloadFile_ok (w : World) (url : string) (p : path) (t t' : FS) (resp : Response) :
  http_Get w url = Ok resp → downloadFile w url p t = (Ok tt, t') →
  ∃ pm, t' !! p = Some (FileNode (Body resp) pm).
Proof.
  unfold downloadFile, WriteFile. intros ->.
  destruct (negb (Nat.eqb _ _)); [done|]. destruct (negb (is_dir _ _)); [done|].
  destruct (t !! p) as [[pm|old pm]|]; [done| |].
  - intros [= <-]. rewrite lookup_insert_eq. eauto.
  - destruct p; [done|]. intros [= <-]. rewrite lookup_insert_eq. eauto.
Qed.

Lemma downloadSources_fails (w : World) (rawGitHubURL : string) (tempDir : path)
    (sources : list Source) (src : Source) (t : FS) :
  src ∈ sources → http_fails w (rawGitHubURL +:+ "/" +:+ Path src) = true →
  ∃ e t', downloadSources w rawGitHubURL tempDir sources t = (Err e, t').
Proof.
  intros Hin Hfail. revert t. induction sources as [|src0 rest IH]; intros t.
  - by apply elem_of_nil in Hin.
  - simpl. unfold_m.
    destruct (downloadFile w _ _ t) as [[[]|e] t1] eqn:Hd; [|eauto].
    apply elem_of_cons in Hin as [->|Hin]; [|by apply IH].
    destruct (downloadFile_http_fails w _ (Join tempDir (Path src0)) t Hfail) as [e He].
    congruence.
Qed.

(** C6.  Once the temporary directory exists, whatever happens next,
    [installFromGitspaceCatalog] leaves nothing at or below it.  And if
    the download of the manifest cannot succeed, or the manifest is
    downloaded and decoded and the download of one of its declared
    sources cannot succeed, then [installFromGitspaceCatalog] returns an
    error. *)
Theorem catalog_download_failure_cleans_up (w : World) (install : string → M unit)
    (catalogItem : string) (s s1 : FS) (catalog : GitspaceCatalog) (plugin : Plugin)
    (tempDir : path) :
  FetchGitspaceCatalog w "ssotops" "gitspace-catalog" = Ok catalog →
  Plugins catalog !! catalogItem = Some plugin →
  plugin_Path plugin ≠ "" →
  MkdirTemp w s = (Ok tempDir, s1) →
  let rawGitHubURL :=
    "https://raw.githubusercontent.com/" +:+ "ssotops" +:+ "/" +:+ "gitspace-catalog"
    +:+ "/" +:+ "master" +:+ "/" +:+ plugin_Path plugin in
  let run := installFromGitspaceCatalog w install catalogItem s in
  (∀ q, is_prefix tempDir q = true → run.2 !! q = None)
  ∧ (http_fails w (rawGitHubURL +:+ "/gitspace-plugin.toml") = true
     ∨ (∃ resp m src,
          http_Get w (rawGitHubURL +:+ "/gitspace-plugin.toml") = Ok resp
          ∧ toml_Unmarshal w (Body resp) = Ok m
          ∧ src ∈ Sources m
          ∧ http_fails w (rawGitHubURL +:+ "/" +:+ Path src) = true) →
     ∃ e, run.1 = Err e).
Proof.
  intros Hfetch Hitem Hpath Htmp rawGitHubURL run.
  assert (Hclean : ∀ t q, is_prefix tempDir q = true → remove_tree tempDir t !! q = None).
  { intros t q Hq. apply remove_tree_below. by apply is_prefix_spec. }
  unfold run, installFromGitspaceCatalog. rewrite Hfetch, Hitem.
  apply String.eqb_neq in Hpath. rewrite Hpath. cbv zeta. fold rawGitHubURL.
  unfold_m. rewrite Htmp.
  destruct (downloadFile w (rawGitHubURL +:+ "/gitspace-plugin.toml")
              (Join tempDir "gitspace-plugin.toml") s1) as [[[]|e] s2] eqn:Hdm.
  2:{ simpl. eauto. }
  destruct (loadPluginManifest w (Join tempDir "gitspace-plugin.toml") s2)
    as [[m|e] s3] eqn:Hl.
  2:{ simpl. eauto. }
  destruct (downloadSources w rawGitHubURL tempDir (Sources m) s3) as [[[]|e] s4] eqn:Hds.
  2:{ simpl. eauto. }
  destruct (install (path_string tempDir) s4) as [r s5] eqn:Hi. simpl.
  split; [by apply Hclean|].
  intros [Hfail|(resp&m'&src&Hget&Hdec&Hin&Hfail)].
  { destruct (downloadFile_http_fails w _ (Join tempDir "gitspace-plugin.toml") s1 Hfail).
    congruence. }
  destruct (downloadFile_ok _ _ _ _ _ _ Hget Hdm) as [pm Hfile].
  rewrite (loadPluginManifest_accepts w _ _ _ _ _ Hfile Hdec) in Hl.
  assert (m' = m ∧ s2 = s3) as [-> ->] by (split; congruence).
  destruct (downloadSources_fails w rawGitHubURL tempDir _ _ s3 Hin Hfail) as (e&s6&?).
  congruence.
Qed.

Lemma catalog_download_failure_cleans_up_witness :
  let run :=
    installFromGitspaceCatalog demo_world (installPlugin demo_world) "hello" demo_ready in
  (∃ e, run.1 = Err e)
  ∧ ∀ q, is_prefix ["tmp"; "gitspace-plugin-1"] q = true → run.2 !! q = None.
Proof.
  intros run.
  destruct (catalog_download_failure_cleans_up demo_world (installPlugin demo_world)
              "hello" demo_ready (MkdirTemp demo_world demo_ready).2 demo_catalog
              {| plugin_Path := "plugins/hello"; plugin_Version := "1";
                 plugin_Description := "" |}
              ["tmp"; "gitspace-plugin-1"]) as [Hclean Herr]; try by_running.
  split; [|exact Hclean]. apply Herr.
  right. exists {| StatusCode := 200; Status := "200 OK"; Body := hello_toml |},
    hello_manifest, (mk_source "main.go" "main").
  split; [by_running|]. split; [by_running|]. split; [|by_running].
  apply list_elem_of_In. simpl. by left.
Defined.

(** ** Facts for the repeated install *)

(** A copy whose destination is inside [D], the directories down to [D]
    being there, changes nothing outside [D]. *)
Lemma copyFile_confined (D src dst : path) (t t' : FS) (r : result unit) :
  copyFile src dst t = (r, t') → D `prefix_of` dst → dirs_to t D →
  ∀ q, ¬ D `prefix_of` q → t' !! q = t !! q.
Proof.
  intros H Hdst Hdirs q Hq.
  destruct (copyFile_change _ _ _ _ _ H q) as [?|[(Hn&_&Hpre&Hne)|(->&_)]]; [done| |done].
  assert (Hqd : q `prefix_of` dst) by (etrans; [exact Hpre|apply Dir_prefix]).
  destruct (prefix_weak_total _ _ _ Hqd Hdst) as [HqD|?]; [|done].
  destruct (Hdirs q HqD Hne) as [pm E]. congruence.
Qed.

Lemma run_command_confined (w : World) (argv : list string) (dir : path) (msg : string)
    (t t' : FS) (r : result unit) :
  commands_confined w → run_command w argv (Some dir) msg t = (r, t') →
  ∀ q, ¬ dir `prefix_of` q → t' !! q = t !! q.
Proof.
  intros Hw. unfold run_command.
  destruct (CombinedOutput w argv (Some dir) t) as [[out [e|]] t1] eqn:E;
    intros [= _ <-] q Hq; eapply Hw; eauto; by apply is_prefix_false.
Qed.

Lemma goModSetup_confined (w : World) (D : path) (name : string)
    (t t' : FS) (r : result unit) :
  commands_confined w → goModSetup w D name t = (r, t') →
  ∀ q, ¬ D `prefix_of` q → t' !! q = t !! q.
Proof.
  intros Hw. unfold goModSetup. unfold_m.
  destruct (if not_exist t (Join D "go.mod") then _ else _) as [[[]|e] t1] eqn:E1.
  2:{ intros [= _ <-] q Hq. destruct (not_exist t _); [|by simplify_eq].
      by eapply run_command_confined. }
  assert (H1 : ∀ q, ¬ D `prefix_of` q → t1 !! q = t !! q).
  { intros q Hq. destruct (not_exist t _); [|by simplify_eq].
    by eapply run_command_confined. }
  destruct (run_command w _ (Some D) "failed to update go.mod version" t1)
    as [[[]|e] t2] eqn:E2.
  2:{ intros [= _ <-] q Hq. rewrite <- H1 by done. by eapply run_command_confined. }
  intros E3 q Hq. rewrite <- H1 by done.
  rewrite <- (run_command_confined _ _ _ _ _ _ _ Hw E2 q Hq).
  by eapply run_command_confined.
Qed.

Lemma loadPluginManifest_agree (w : World) (p : path) (s t : FS) :
  t !! p = s !! p → (loadPluginManifest w p t).1 = (loadPluginManifest w p s).1.
Proof.
  intros E. unfold loadPluginManifest, ReadFile. unfold_m. rewrite E.
  destruct (s !! p) as [[pm|data pm]|]; try done. by destruct (toml_Unmarshal w data).
Qed.

Lemma copyPlugin_remove (D mp sd : path) (sources : list Source) (s t : FS) :
  remove_tree D s = remove_tree D t →
  copyPlugin D mp sd sources s = copyPlugin D mp sd sources t.
Proof. intros E. unfold copyPlugin, RemoveAll. unfold_m. by rewrite E. Qed.

Lemma sources_confined_spec (D : path) (sources : list Source) :
  sources_confined D sources = true →
  ∀ src, src ∈ sources → D `prefix_of` Join D (Path src).
Proof.
  unfold sources_confined. rewrite forallb_forall. intros H src Hin.
  apply is_prefix_spec, H. by apply list_elem_of_In.
Qed.

(** What a successful [copyPlugin] into [P/name] leaves outside the
    destination: everything as it was; and the manifest it read is not
    inside the destination. *)
Lemma copyPlugin_outside (P mp sd : path) (name : string) (sources : list Source)
    (s sc : FS) :
  dirs_to s P →
  sources_confined (P ++ [name]) sources = true →
  copyPlugin (P ++ [name]) mp sd sources s = (Ok tt, sc) →
  (∀ q, ¬ (P ++ [name]) `prefix_of` q → sc !! q = s !! q)
  ∧ ¬ (P ++ [name]) `prefix_of` mp.
Proof.
  intros HP Hconf. set (D := P ++ [name]).
  pose proof (sources_confined_spec _ _ Hconf) as Hin.
  unfold copyPlugin, RemoveAll. unfold_m.
  set (sb := remove_tree D s).
  assert (Hsb : ∀ q, ¬ D `prefix_of` q → sb !! q = s !! q).
  { intros q Hq. unfold sb. rewrite remove_tree_lookup.
    apply is_prefix_false in Hq. by rewrite Hq. }
  assert (HPb : dirs_to sb P).
  { intros q Hq Hne. rewrite Hsb; [by apply HP|].
    intros HD. apply (prefix_snoc_not P name). by etrans. }
  destruct (MkdirAll D perm_0755 sb) as [[[]|e] s1] eqn:Hmk; [|done].
  assert (H1 : ∀ q, ¬ D `prefix_of` q → s1 !! q = sb !! q).
  { intros q Hq. destruct (MkdirAll_change _ _ _ _ _ Hmk q) as [?|(Hn&_&Hpre&Hne)]; [done|].
    apply prefix_snoc_inv in Hpre as [Hpre| ->]; [|by destruct Hq].
    destruct (HPb q Hpre Hne) as [pm E]. congruence. }
  pose proof (MkdirAll_ok _ _ _ _ Hmk) as HD1.
  destruct (copyFile mp (Join D "gitspace-plugin.toml") s1) as [[[]|e] s2] eqn:Hcp; [|done].
  assert (HdstM : D `prefix_of` Join D "gitspace-plugin.toml").
  { rewrite Join_plain by done. by apply prefix_app_r. }
  pose proof (copyFile_confined _ _ _ _ _ _ Hcp HdstM HD1) as H2.
  pose proof (copyFile_keeps_dirs _ _ _ _ _ _ Hcp HD1) as HD2.
  assert (Hmp : ¬ D `prefix_of` mp).
  { intros Hmp. destruct (copyFile_ok _ _ _ _ Hcp) as (data&pm&pm'&Hs1&_).
    destruct (MkdirAll_change _ _ _ _ _ Hmk mp) as [E|(_&E&_)]; [|congruence].
    rewrite Hs1 in E. unfold sb in E. by rewrite remove_tree_below in E. }
  intros Hloop. split; [|done].
  assert (Hinv : dirs_to sc D ∧ ∀ q, ¬ D `prefix_of` q → sc !! q = s2 !! q).
  { eapply (copySources_inv
              (λ t, dirs_to t D ∧ ∀ q, ¬ D `prefix_of` q → t !! q = s2 !! q));
      [|exact Hloop|done].
    intros src t r t' Hsrc Hc [Hd Ha]. split.
    - by eapply copyFile_keeps_dirs.
    - intros q Hq. rewrite <- Ha by done.
      eapply copyFile_confined; [exact Hc|by apply Hin|done|done]. }
  intros q Hq. destruct Hinv as [_ ->]; [|done]. rewrite H2, H1 by done. by apply Hsb.
Qed.

(** The core of the repeated install: after a successful
    [installManifest] into [P/name], running it again changes nothing. *)
Lemma installManifest_again (w : World) (P mp sd : path) (s s1 : FS) (m : PluginManifest) :
  commands_confined w →
  dirs_to s P →
  (loadPluginManifest w mp s).1 = Ok m →
  plain_name (Name m) = true →
  sources_confined (Join P (Name m)) (Sources m) = true →
  installManifest w P mp sd s = (Ok tt, s1) →
  installManifest w P mp sd s1 = (Ok tt, s1)
  ∧ (∀ q, ¬ Join P (Name m) `prefix_of` q → s1 !! q = s !! q)
  ∧ ¬ Join P (Name m) `prefix_of` mp.
Proof.
  intros Hw HP Hload Hname Hconf. rewrite (Join_plain P _ Hname) in *.
  unfold installManifest at 1. unfold_m.
  destruct (loadPluginManifest w mp s) as [[m'|e] s0] eqn:El; [|done].
  apply loadPluginManifest_state in El as Hs0. subst s0. simpl in Hload. simplify_eq.
  rewrite (Join_plain P _ Hname).
  destruct (copyPlugin (P ++ [Name m]) mp sd (Sources m) s) as [[[]|e] sc] eqn:Ec; [|done].
  intros Hgo.
  destruct (copyPlugin_outside _ _ _ _ _ _ _ HP Hconf Ec) as [Hout Hmp].
  assert (Hs1 : ∀ q, ¬ (P ++ [Name m]) `prefix_of` q → s1 !! q = s !! q).
  { intros q Hq. rewrite <- Hout by done. by eapply goModSetup_confined. }
  split; [|done].
  unfold installManifest. unfold_m.
  pose proof (loadPluginManifest_agree w mp s s1 (Hs1 _ Hmp)) as Hl.
  rewrite El in Hl. simpl in Hl.
  destruct (loadPluginManifest w mp s1) as [r t] eqn:El1.
  apply loadPluginManifest_state in El1 as Ht. subst t. simpl in Hl. subst r.
  rewrite (Join_plain P _ Hname).
  rewrite (copyPlugin_remove _ _ _ _ s1 s), Ec; [done|].
  by apply remove_tree_agree.
Qed.

Lemma getPluginsDir_ok (w : World) (s sa : FS) (P : path) :
  getPluginsDir w s = (Ok P, sa) →
  dirs_to sa P ∧ ∀ t, dirs_to t P → getPluginsDir w t = (Ok P, t).
Proof.
  unfold getPluginsDir. destruct (UserHomeDir w) as [home|e]; [|done]. unfold_m.
  destruct (MkdirAll _ perm_0755 s) as [[[]|e] s1] eqn:Hmk; [|done].
  intros [= <- <-]. split; [by eapply MkdirAll_ok|].
  intros t Ht. by rewrite (MkdirAll_id _ _ _ Ht).
Qed.

Lemma resolveLocal_agree (w : World) (source : string) (s t : FS) (mp sd : path) :
  resolveLocal w source s = (Ok (mp, sd), s) →
  (∀ q, q `prefix_of` mp → t !! q = s !! q) →
  resolveLocal w source t = (Ok (mp, sd), t).
Proof.
  unfold resolveLocal, Stat. destruct (Abs (Getwd w) source) as [a|e]; [|done]. unfold_m.
  intros H Hag.
  assert (Ha : a `prefix_of` mp).
  { destruct (is_dir s a); [|destruct (is_file s a); [|done]].
    - simplify_eq. rewrite Join_plain by done. by apply prefix_app_r.
    - destruct (String.eqb _ _); by simplify_eq. }
  assert (Ed : is_dir t a = is_dir s a) by (unfold is_dir; by rewrite (Hag a Ha)).
  assert (Ef : is_file t a = is_file s a) by (unfold is_file; by rewrite (Hag a Ha)).
  rewrite Ed, Ef.
  destruct (is_dir s a); [by simplify_eq|].
  destruct (is_file s a); [|done].
  destruct (String.eqb _ _); by simplify_eq.
Qed.

(** C4 (as amended).  For a local source whose manifest has a plain
    name (one path element) and declares only sources that are installed
    inside the destination directory, and with external commands that
    write only inside the directory they run in: if [installPlugin]
    succeeds, running it again on the same source succeeds and leaves the
    whole file system, the destination directory included, exactly as the
    first run left it. *)
Theorem reinstall_idempotent (w : World) (source : string) (s0 sa s1 : FS)
    (pluginsDir manifestPath sourceDir : path) (m : PluginManifest) :
  HasPrefix source "catalog://" = false →
  HasPrefix source "http://" = false →
  HasPrefix source "https://" = false →
  commands_confined w →
  getPluginsDir w s0 = (Ok pluginsDir, sa) →
  resolveLocal w source sa = (Ok (manifestPath, sourceDir), sa) →
  (loadPluginManifest w manifestPath sa).1 = Ok m →
  plain_name (Name m) = true →
  sources_confined (Join pluginsDir (Name m)) (Sources m) = true →
  installPlugin w source s0 = (Ok tt, s1) →
  installPlugin w source s1 = (Ok tt, s1).
Proof.
  intros Hc Hh Hs Hw Hget Hres Hload Hname Hconf.
  rewrite !installPlugin_local by done. rewrite Hget, Hres. intros Hinst.
  destruct (getPluginsDir_ok _ _ _ _ Hget) as [HP Hagain].
  destruct (installManifest_again _ _ _ _ _ _ _ Hw HP Hload Hname Hconf Hinst)
    as (Hsecond & Hout & Hmp).
  assert (HP1 : dirs_to s1 pluginsDir).
  { intros q Hq Hne. rewrite Hout; [by apply HP|].
    rewrite (Join_plain _ _ Hname). intros HD.
    apply (prefix_snoc_not pluginsDir (Name m)). by etrans. }
  rewrite (Hagain _ HP1).
  rewrite (resolveLocal_agree w source sa s1 _ _ Hres); [done|].
  intros q Hq. apply Hout. intros HD. apply Hmp. by etrans.
Qed.

Lemma go_tool_confined : commands_confined demo_world.
Proof.
  intros argv dir s out s' H q Hq. simpl in H. unfold go_tool in H.
  assert (Hne : dir ++ ["go.mod"] ≠ q).
  { intros <-. apply is_prefix_false in Hq. apply Hq. by apply prefix_app_r. }
  unfold go_mod_tidy, go_mod_init, go_mod_edit_go in H.
  repeat case_match; simplify_eq; try done; by rewrite lookup_insert_ne.
Qed.

Lemma reinstall_idempotent_witness :
  let s1 := (installPlugin demo_world "src/hello" demo_fs).2 in
  (installPlugin demo_world "src/hello" demo_fs).1 = Ok tt
  ∧ installPlugin demo_world "src/hello" s1 = (Ok tt, s1).
Proof.
  intros s1. split; [by_running|].
  apply (reinstall_idempotent demo_world "src/hello" demo_fs demo_ready s1 demo_plugins
           ["work"; "src"; "hello"; "gitspace-plugin.toml"] ["work"; "src"; "hello"]
           hello_manifest); try by_running.
  apply go_tool_confined.
Defined.

(** C4, the claim as stated fails: the source [/a/b/c/d/e/f] declares a
    path that climbs out of the destination and lands on the manifest of
    the source itself, which the first install overwrites.  Both installs
    succeed, and the manifest in the destination after the second is not
    the one the first left there. *)
Lemma reinstall_changes_destination :
  let dest := demo_plugins ++ ["shift"; "gitspace-plugin.toml"] in
  let once := installPlugin demo_world "/a/b/c/d/e/f" demo_fs in
  let twice := installPlugin demo_world "/a/b/c/d/e/f" once.2 in
  once.1 = Ok tt
  ∧ twice.1 = Ok tt
  ∧ once.2 !! dest = Some (FileNode shift1_toml perm_0644)
  ∧ twice.2 !! dest = Some (FileNode shift2_toml perm_0644)
  ∧ once.2 !! dest ≠ twice.2 !! dest.
Proof. repeat split; vm_compute; (reflexivity || discriminate). Qed.

(** ** The plugins directory *)

Lemma mkdirAll_from_total (pre rest : path) (perm : N) (s : FS) :
  (∀ q data pm, q `prefix_of` pre ++ rest → pre `prefix_of` q → q ≠ pre →
                s !! q ≠ Some (FileNode data pm)) →
  ∃ s', mkdirAll_from pre rest perm s = (Ok tt, s').
Proof.
  revert pre s. induction rest as [|c rest IH]; intros pre s Hs; simpl; [by eexists|].
  assert (Hp : (pre ++ [c]) `prefix_of` pre ++ c :: rest).
  { exists rest. by rewrite <- app_assoc. }
  assert (Hpre : pre `prefix_of` pre ++ [c]) by (by exists [c]).
  assert (Hne : pre ++ [c] ≠ pre).
  { intros E. apply (f_equal length) in E. rewrite length_app in E. simpl in E. lia. }
  assert (Hnext : ∀ q, (pre ++ [c]) `prefix_of` q → q ≠ pre ++ [c] →
                       pre `prefix_of` q ∧ q ≠ pre).
  { intros q Hq Hq'. split; [by etrans|]. intros ->.
    by apply (prefix_snoc_not pre c). }
  destruct (s !! (pre ++ [c])) as [[pm|data pm]|] eqn:E.
  - apply IH. intros q data pm'. rewrite <- app_assoc. intros H1 H2 H3.
    destruct (Hnext q H2 H3). by apply Hs.
  - by destruct (Hs _ data pm Hp Hpre Hne).
  - apply IH. intros q data pm'. rewrite <- app_assoc. simpl. intros H1 H2 H3.
    rewrite lookup_insert_ne by done. destruct (Hnext q H2 H3). by apply Hs.
Qed.

Lemma MkdirAll_total (p : path) (perm : N) (s : FS) :
  (∀ q data pm, q `prefix_of` p → q ≠ [] → s !! q ≠ Some (FileNode data pm)) →
  ∃ s', MkdirAll p perm s = (Ok tt, s').
Proof.
  intros H. apply (mkdirAll_from_total [] p). intros q data pm Hq _ Hne. by apply H.
Qed.

Lemma Join_plugins (home : path) :
  Join (Join (Join home ".ssot") "gitspace") "plugins"
  = home ++ [".ssot"; "gitspace"; "plugins"].
Proof. rewrite !Join_plain by done. by rewrite <- !app_assoc. Qed.

Lemma getPluginsDir_home (w : World) (s sa : FS) (P : path) :
  getPluginsDir w s = (Ok P, sa) →
  ∃ homeDir, UserHomeDir w = Ok homeDir ∧ P = homeDir ++ [".ssot"; "gitspace"; "plugins"].
Proof.
  intros H. unfold getPluginsDir in H. destruct (UserHomeDir w) as [home|e]; [|done].
  exists home. split; [done|]. rewrite <- Join_plugins. revert H. unfold_m.
  by destruct (MkdirAll _ perm_0755 s) as [[[]|e] s1]; intros [= <- _].
Qed.

Lemma getPluginsDir_new (w : World) (s sa : FS) (P : path) (q : path) (n : node) :
  getPluginsDir w s = (Ok P, sa) → s !! q = None → sa !! q = Some n →
  n = DirNode perm_0755 ∧ q `prefix_of` P ∧ q ≠ [].
Proof.
  intros H Hq Hn. unfold getPluginsDir in H.
  destruct (UserHomeDir w) as [home|e]; [|done]. revert H. unfold_m.
  destruct (MkdirAll _ perm_0755 s) as [[[]|e] s1] eqn:Hmk; [|done].
  intros [= <- <-].
  destruct (MkdirAll_change _ _ _ _ _ Hmk q) as [E|(_&E&Hpre&Hne)]; [congruence|].
  split; [congruence|done].
Qed.

Lemma demo_ready_dirs : dirs_to demo_ready demo_plugins.
Proof.
  apply (getPluginsDir_ok demo_world demo_fs demo_ready demo_plugins). by_running.
Qed.

(** X1.  When [getPluginsDir] succeeds, the directory it returns is
    [<home>/.ssot/gitspace/plugins]; afterwards that directory and all its
    parents exist as directories; no entry that existed has been changed
    or removed; whatever is new is a directory of mode 0755 on the way to
    the plugins directory; and calling it again returns the same directory
    and changes nothing. *)
Theorem getPluginsDir_settles (w : World) (s sa : FS) (pluginsDir : path) :
  getPluginsDir w s = (Ok pluginsDir, sa) →
  (∃ homeDir, UserHomeDir w = Ok homeDir
              ∧ pluginsDir = homeDir ++ [".ssot"; "gitspace"; "plugins"])
  ∧ dirs_to sa pluginsDir
  ∧ (∀ q n, s !! q = Some n → sa !! q = Some n)
  ∧ (∀ q n, s !! q = None → sa !! q = Some n →
            n = DirNode perm_0755 ∧ q `prefix_of` pluginsDir ∧ q ≠ [])
  ∧ getPluginsDir w sa = (Ok pluginsDir, sa).
Proof.
  intros H. destruct (getPluginsDir_ok _ _ _ _ H) as [Hd Hagain].
  split; [by eapply getPluginsDir_home|]. split; [done|].
  split; [by eapply getPluginsDir_extends|]. split; [|by apply Hagain].
  intros q n. by apply (getPluginsDir_new w).
Qed.

Lemma getPluginsDir_settles_witness :
  dirs_to demo_ready demo_plugins
  ∧ getPluginsDir demo_world demo_ready = (Ok demo_plugins, demo_ready).
Proof.
  destruct (getPluginsDir_settles demo_world demo_fs demo_ready demo_plugins)
    as (_ & Hd & _ & _ & Hagain); [by_running|].
  exact (conj Hd Hagain).
Defined.

(** With a home directory and no regular file on the way to the plugins
    directory, [getPluginsDir] succeeds. *)
Lemma getPluginsDir_total (w : World) (homeDir : path) (s : FS) :
  UserHomeDir w = Ok homeDir →
  (∀ q data pm, q `prefix_of` homeDir ++ [".ssot"; "gitspace"; "plugins"] → q ≠ [] →
                s !! q ≠ Some (FileNode data pm)) →
  ∃ sa, getPluginsDir w s = (Ok (homeDir ++ [".ssot"; "gitspace"; "plugins"]), sa).
Proof.
  intros Hh Hs. unfold getPluginsDir. rewrite Hh, Join_plugins. unfold_m.
  destruct (MkdirAll_total _ perm_0755 s Hs) as [s' ->]. eauto.
Qed.

(** ** Uninstalling *)

Lemma uninstallPlugin_run (w : World) (name : string) (s sa : FS) (P : path) :
  getPluginsDir w s = (Ok P, sa) →
  uninstallPlugin w name s = (Ok tt, remove_tree (Join P name) sa).
Proof. intros H. unfold uninstallPlugin, RemoveAll. unfold_m. by rewrite H. Qed.

Lemma uninstallPlugin_inv (w : World) (name : string) (s s1 : FS) :
  uninstallPlugin w name s = (Ok tt, s1) →
  ∃ P sa, getPluginsDir w s = (Ok P, sa) ∧ s1 = remove_tree (Join P name) sa.
Proof.
  unfold uninstallPlugin, RemoveAll. unfold_m.
  destruct (getPluginsDir w s) as [[P|e] sa]; [|done]. intros [= <-]. eauto.
Qed.

Lemma remove_tree_idemp (p : path) (s : FS) :
  remove_tree p (remove_tree p s) = remove_tree p s.
Proof.
  apply map_eq. intros q. rewrite !remove_tree_lookup. by destruct (is_prefix p q).
Qed.

Lemma remove_tree_outside (p q : path) (s : FS) :
  ¬ p `prefix_of` q → remove_tree p s !! q = s !! q.
Proof. intros H. rewrite remove_tree_lookup. apply is_prefix_false in H. by rewrite H. Qed.

(** X2.  [uninstallPlugin] succeeds whenever the plugins directory can
    be obtained, whether or not a plugin of that name is installed.
    Afterwards nothing is left at or below [<plugins>/name]; every other
    entry is as [getPluginsDir] left it, so nothing that existed outside
    the plugin's directory is lost; and for a plain name the plugins
    directory itself is still there. *)
Theorem uninstallPlugin_removes (w : World) (name : string) (s sa : FS) (pluginsDir : path) :
  getPluginsDir w s = (Ok pluginsDir, sa) →
  ∃ s1, uninstallPlugin w name s = (Ok tt, s1)
        ∧ (∀ q, Join pluginsDir name `prefix_of` q → s1 !! q = None)
        ∧ (∀ q, ¬ Join pluginsDir name `prefix_of` q → s1 !! q = sa !! q)
        ∧ (∀ q n, ¬ Join pluginsDir name `prefix_of` q →
                  s !! q = Some n → s1 !! q = Some n)
        ∧ (plain_name name = true → dirs_to s1 pluginsDir).
Proof.
  intros H. eexists. split; [by apply uninstallPlugin_run|].
  split; [|split; [|split]].
  - intros q Hq. by apply remove_tree_below.
  - intros q Hq. by apply remove_tree_outside.
  - intros q n Hq Hs. rewrite remove_tree_outside by done.
    by eapply getPluginsDir_extends.
  - intros Hn q Hq Hne. rewrite (Join_plain _ _ Hn). rewrite remove_tree_outside.
    + destruct (getPluginsDir_ok _ _ _ _ H) as [Hd _]. by apply Hd.
    + intros HD. apply (prefix_snoc_not pluginsDir name). by etrans.
Qed.

Lemma uninstallPlugin_removes_witness :
  ∃ s1, uninstallPlugin demo_world "hello" demo_installed = (Ok tt, s1)
        ∧ s1 !! (demo_plugins ++ ["hello"; "main.go"]) = None
        ∧ dirs_to s1 demo_plugins.
Proof.
  destruct (uninstallPlugin_removes demo_world "hello" demo_installed
              (getPluginsDir demo_world demo_installed).2 demo_plugins)
    as (s1 & Hrun & Hgone & _ & _ & Hdir); [by_running|].
  exists s1. split; [exact Hrun|]. split; [|by apply Hdir].
  apply Hgone. by exists ["main.go"].
Defined.

(** X3.  A name that [filepath.Join] resolves to the plugins directory
    itself or to one of its parents makes [uninstallPlugin] remove the
    plugins directory: every installed plugin is gone.  The empty name
    and [.] are such names. *)
Theorem uninstallPlugin_blank_name (w : World) (name : string) (s sa : FS)
    (pluginsDir : path) :
  getPluginsDir w s = (Ok pluginsDir, sa) →
  Join pluginsDir name `prefix_of` pluginsDir →
  (∃ s1, uninstallPlugin w name s = (Ok tt, s1)
         ∧ ∀ q, pluginsDir `prefix_of` q → s1 !! q = None)
  ∧ Join pluginsDir "" = pluginsDir
  ∧ Join pluginsDir "." = pluginsDir.
Proof.
  intros H Hname. split.
  - eexists. split; [by apply uninstallPlugin_run|].
    intros q Hq. apply remove_tree_below. by etrans.
  - unfold Join. simpl. by rewrite rev_involutive.
Qed.

Lemma uninstallPlugin_blank_name_witness :
  ∃ s1, uninstallPlugin demo_world "" demo_installed = (Ok tt, s1)
        ∧ s1 !! (demo_plugins ++ ["hello"]) = None
        ∧ s1 !! demo_plugins = None.
Proof.
  destruct (uninstallPlugin_blank_name demo_world "" demo_installed
              (getPluginsDir demo_world demo_installed).2 demo_plugins)
    as [(s1 & Hrun & Hgone) _]; [by_running|vm_compute; by exists []|].
  exists s1. split; [exact Hrun|]. split; apply Hgone; [by exists ["hello"]|done].
Defined.

(** X4.  Uninstalling is idempotent: after a successful
    [uninstallPlugin], doing it again succeeds and changes nothing,
    whatever the name. *)
Theorem uninstallPlugin_idempotent (w : World) (name : string) (s s1 : FS) :
  uninstallPlugin w name s = (Ok tt, s1) →
  uninstallPlugin w name s1 = (Ok tt, s1).
Proof.
  intros H. destruct (uninstallPlugin_inv _ _ _ _ H) as (P & sa & Hget & ->).
  set (D := Join P name).
  destruct (getPluginsDir_home _ _ _ _ Hget) as (home & Hh & HP).
  destruct (getPluginsDir_ok _ _ _ _ Hget) as [Hd _].
  assert (Hfile : ∀ q data pm, q `prefix_of` home ++ [".ssot"; "gitspace"; "plugins"] →
            q ≠ [] → remove_tree D sa !! q ≠ Some (FileNode data pm)).
  { intros q data pm Hq Hne. rewrite remove_tree_lookup. destruct (is_prefix D q); [done|].
    rewrite <- HP in Hq. by destruct (Hd q Hq Hne) as [pm' ->]. }
  destruct (getPluginsDir_total w home _ Hh Hfile) as [sa' Hget']. rewrite <- HP in Hget'.
  rewrite (uninstallPlugin_run _ _ _ _ _ Hget'). f_equal. fold D.
  rewrite <- (remove_tree_idemp D sa). apply remove_tree_agree. intros q Hq.
  destruct (remove_tree D sa !! q) as [n|] eqn:E;
    [by eapply getPluginsDir_extends|].
  destruct (sa' !! q) as [n|] eqn:E'; [|done].
  destruct (getPluginsDir_new _ _ _ _ _ _ Hget' E E') as (_ & Hpre & Hne).
  rewrite remove_tree_outside in E by done.
  destruct (Hd q Hpre Hne) as [pm ?]. congruence.
Qed.

Lemma uninstallPlugin_idempotent_witness :
  let s1 := (uninstallPlugin demo_world "hello" demo_installed).2 in
  uninstallPlugin demo_world "hello" s1 = (Ok tt, s1).
Proof.
  intros s1. apply (uninstallPlugin_idempotent demo_world "hello" demo_installed).
  by_running.
Defined.

(** X5.  Installing and then uninstalling leaves no trace.  For a local
    source whose manifest has a plain name and declares only sources that
    are installed inside the destination directory, and with external
    commands that write only inside the directory they run in: after a
    successful [installPlugin], [uninstallPlugin] on the manifest's name
    succeeds and ends in the very state that uninstalling would have
    reached without the install. *)
Theorem install_then_uninstall (w : World) (source : string) (s0 sa s1 : FS)
    (pluginsDir manifestPath sourceDir : path) (m : PluginManifest) :
  HasPrefix source "catalog://" = false →
  HasPrefix source "http://" = false →
  HasPrefix source "https://" = false →
  commands_confined w →
  getPluginsDir w s0 = (Ok pluginsDir, sa) →
  resolveLocal w source sa = (Ok (manifestPath, sourceDir), sa) →
  (loadPluginManifest w manifestPath sa).1 = Ok m →
  plain_name (Name m) = true →
  sources_confined (Join pluginsDir (Name m)) (Sources m) = true →
  installPlugin w source s0 = (Ok tt, s1) →
  ∃ s2, uninstallPlugin w (Name m) s1 = (Ok tt, s2)
        ∧ uninstallPlugin w (Name m) s0 = (Ok tt, s2)
        ∧ (∀ q, Join pluginsDir (Name m) `prefix_of` q → s2 !! q = None)
        ∧ (∀ q, ¬ Join pluginsDir (Name m) `prefix_of` q → s2 !! q = sa !! q).
Proof.
  intros Hc Hh Hs Hw Hget Hres Hload Hname Hconf.
  rewrite installPlugin_local by done. rewrite Hget, Hres. intros Hinst.
  destruct (getPluginsDir_ok _ _ _ _ Hget) as [HP Hagain].
  destruct (installManifest_again _ _ _ _ _ _ _ Hw HP Hload Hname Hconf Hinst)
    as (_ & Hout & _).
  assert (HP1 : dirs_to s1 pluginsDir).
  { intros q Hq Hne. rewrite Hout; [by apply HP|].
    rewrite (Join_plain _ _ Hname). intros HD.
    apply (prefix_snoc_not pluginsDir (Name m)). by etrans. }
  exists (remove_tree (Join pluginsDir (Name m)) sa).
  split; [|split; [by apply uninstallPlugin_run|split]].
  - rewrite (uninstallPlugin_run _ _ _ _ _ (Hagain _ HP1)). f_equal.
    by apply remove_tree_agree.
  - intros q Hq. by apply remove_tree_below.
  - intros q Hq. by apply remove_tree_outside.
Qed.

Lemma install_then_uninstall_witness :
  ∃ s2, uninstallPlugin demo_world "hello" demo_installed = (Ok tt, s2)
        ∧ uninstallPlugin demo_world "hello" demo_fs = (Ok tt, s2).
Proof.
  destruct (install_then_uninstall demo_world "src/hello" demo_fs demo_ready
              demo_installed demo_plugins
              ["work"; "src"; "hello"; "gitspace-plugin.toml"] ["work"; "src"; "hello"]
              hello_manifest) as (s2 & H1 & H2 & _);
    [by_running|by_running|by_running|apply go_tool_confined|by_running..|].
  exists s2. exact (conj H1 H2).
Defined.

(** ** What a copy leaves behind *)

(** X6.  A successful [copyFile] leaves at [dst] a regular file with
    the content [src] had; its mode is 0644 if [dst] is new and the old
    mode if [dst] was a file already; the directories down to [dst] exist;
    [src], if it is another path, is unchanged, and so is every other
    entry that existed. *)
Theorem copyFile_copies (src dst : path) (s s' : FS) :
  copyFile src dst s = (Ok tt, s') →
  ∃ data pm pm',
    s !! src = Some (FileNode data pm)
    ∧ s' !! dst = Some (FileNode data pm')
    ∧ (s !! dst = None → pm' = perm_0644)
    ∧ (∀ old pm0, s !! dst = Some (FileNode old pm0) → pm' = pm0)
    ∧ dirs_to s' (Dir dst)
    ∧ (∀ q n, q ≠ dst → s !! q = Some n → s' !! q = Some n).
Proof.
  intros H. destruct (copyFile_ok _ _ _ _ H) as (data & pm & pm' & Hsrc & Hdst).
  exists data, pm, pm'. split; [done|]. split; [done|].
  split; [|split; [|split]].
  - intros Hn. destruct (copyFile_change _ _ _ _ _ H dst)
      as [E|[(_&E&_)|(_&_&d&[(_&E)|(old&pm0&E0&E)])]]; congruence.
  - intros old pm0 Ho. destruct (copyFile_change _ _ _ _ _ H dst)
      as [E|[(E&_)|(_&_&d&[(E&_)|(old'&pm1&E0&E)])]]; congruence.
  - revert H. unfold copyFile. unfold_m.
    destruct (MkdirAll (Dir dst) perm_0755 s) as [[[]|e] s1] eqn:Hmk; [|done].
    unfold ReadFile. destruct (s1 !! src) as [[?|input ?]|]; try done.
    unfold WriteFile. destruct (negb (is_dir s1 (Dir dst))); [done|].
    pose proof (MkdirAll_ok _ _ _ _ Hmk) as Hd.
    assert (Hkeep : ∀ n, dirs_to (<[dst := n]> s1) (Dir dst)).
    { intros n q Hq Hne. rewrite lookup_insert_ne; [by apply Hd|].
      intros <-. destruct dst as [|x dst] using rev_ind; [done|].
      rewrite Dir_snoc in Hq. by apply (prefix_snoc_not dst x). }
    destruct (s1 !! dst) as [[?|old ?]|]; [done| |destruct dst; [done|]];
      intros [= <-]; apply Hkeep.
  - intros q n Hq Hs. destruct (copyFile_change _ _ _ _ _ H q)
      as [E|[(E&_)|(E&_)]]; congruence.
Qed.

Lemma copyFile_copies_witness :
  let s' := (copyFile ["work"; "notes.txt"] ["work"; "copy"; "notes.txt"] demo_fs).2 in
  s' !! ["work"; "copy"; "notes.txt"] = Some (FileNode "notes" perm_0644)
  ∧ s' !! ["work"; "notes.txt"] = Some (FileNode "notes" perm_0644).
Proof.
  intros s'.
  destruct (copyFile_copies ["work"; "notes.txt"] ["work"; "copy"; "notes.txt"] demo_fs s')
    as (data & pm & pm' & Hsrc & Hdst & Hnew & _ & _ & Hkeep); [by_running|].
  assert (E : demo_fs !! ["work"; "notes.txt"] = Some (FileNode "notes" perm_0644))
    by (vm_compute; reflexivity).
  rewrite E in Hsrc. injection Hsrc as <- <-.
  rewrite Hnew in Hdst by (vm_compute; reflexivity).
  split; [exact Hdst|]. apply Hkeep; [discriminate|exact E].
Defined.

(** An entry that exists and is no destination of the loop comes out of
    it unchanged. *)
Lemma copySources_untouched (sd D : path) (sources : list Source) (s s' : FS)
    (r : result unit) (q : path) (n : node) :
  copySources sd D sources s = (r, s') →
  q ∉ map (λ src, Join D (Path src)) sources →
  s !! q = Some n → s' !! q = Some n.
Proof.
  intros H Hq. eapply (copySources_inv (λ t, t !! q = Some n)); [|exact H].
  intros src t r' t' Hin Hc Ht.
  destruct (copyFile_change _ _ _ _ _ Hc q) as [E|[(E&_)|(E&_)]]; [congruence..|].
  destruct Hq. subst q. apply list_elem_of_fmap. by exists src.
Qed.

(** The content the loop leaves at a destination is the content of a
    declared source with that destination. *)
Lemma copySources_content (sd D : path) (sources : list Source) (s sc : FS) :
  copySources sd D sources s = (Ok tt, sc) →
  dirs_to s D →
  (∀ src, src ∈ sources → D `prefix_of` Join D (Path src)) →
  (∀ src, src ∈ sources → ¬ D `prefix_of` Join sd (Path src)) →
  ∀ src, src ∈ sources →
    ∃ src' data pm pm',
      src' ∈ sources
      ∧ Join D (Path src') = Join D (Path src)
      ∧ s !! Join sd (Path src') = Some (FileNode data pm)
      ∧ sc !! Join D (Path src) = Some (FileNode data pm').
Proof.
  revert s. induction sources as [|src0 rest IH]; intros s H HD Hin Hout src Hsrc.
  { by apply elem_of_nil in Hsrc. }
  simpl in H. revert H. unfold_m.
  destruct (copyFile _ _ s) as [[[]|e] s3] eqn:Hc; [|done]. intros Hrest.
  assert (Hin0 : D `prefix_of` Join D (Path src0)) by (apply Hin; by left).
  pose proof (copyFile_keeps_dirs _ _ _ _ _ _ Hc HD) as HD3.
  pose proof (copyFile_confined _ _ _ _ _ _ Hc Hin0 HD) as Hag.
  destruct (decide (Join D (Path src) ∈ map (λ src, Join D (Path src)) rest)) as [Hd|Hd].
  - apply list_elem_of_fmap in Hd as (src1 & Heq & Hsrc1).
    destruct (IH s3 Hrest HD3) with (src := src1) as (src' & data & pm & pm' & H1 & H2 & H3 & H4).
    + intros x Hx. apply Hin. by right.
    + intros x Hx. apply Hout. by right.
    + done.
    + exists src', data, pm, pm'. split; [by right|]. split; [congruence|].
      split; [|congruence]. rewrite <- Hag; [done|]. apply Hout. by right.
  - assert (src = src0) as ->.
    { apply elem_of_cons in Hsrc as [?|Hr]; [done|]. destruct Hd.
      apply list_elem_of_fmap. by exists src. }
    destruct (copyFile_ok _ _ _ _ Hc) as (data & pm & pm' & H1 & H2).
    exists src0, data, pm, pm'. split; [by left|]. split; [done|]. split; [done|].
    by eapply copySources_untouched.
Qed.

(** X7.  The copy phase of [installPlugin] installs the declared
    content.  When it succeeds into [<plugins>/name], with every declared
    source installed inside that directory and read from outside it, each
    declared destination is a file of mode 0644 whose content is that of a
    declared source with this destination, as it was before the install;
    and unless a declared source is installed over it, the manifest in the
    destination is a copy of the manifest read. *)
Theorem copyPlugin_content (P mp sd : path) (name : string) (sources : list Source)
    (s sc : FS) :
  dirs_to s P →
  sources_confined (P ++ [name]) sources = true →
  (∀ src, src ∈ sources → ¬ (P ++ [name]) `prefix_of` Join sd (Path src)) →
  copyPlugin (P ++ [name]) mp sd sources s = (Ok tt, sc) →
  (∀ src, src ∈ sources →
     ∃ src' data pm,
       src' ∈ sources
       ∧ Join (P ++ [name]) (Path src') = Join (P ++ [name]) (Path src)
       ∧ s !! Join sd (Path src') = Some (FileNode data pm)
       ∧ sc !! Join (P ++ [name]) (Path src) = Some (FileNode data perm_0644))
  ∧ (Join (P ++ [name]) "gitspace-plugin.toml"
       ∉ map (λ src, Join (P ++ [name]) (Path src)) sources →
     ∃ data pm,
       s !! mp = Some (FileNode data pm)
       ∧ sc !! Join (P ++ [name]) "gitspace-plugin.toml" = Some (FileNode data perm_0644)).
Proof.
  intros HP Hconf Hsrc Hrun. set (D := P ++ [name]) in *.
  pose proof (copyPlugin_files _ _ _ _ _ _ _ Hrun) as Hfiles.
  pose proof (sources_confined_spec _ _ Hconf) as Hin.
  assert (HdstM : D `prefix_of` Join D "gitspace-plugin.toml").
  { rewrite Join_plain by done. by apply prefix_app_r. }
  revert Hrun. unfold copyPlugin, RemoveAll. unfold_m.
  destruct (MkdirAll D perm_0755 (remove_tree D s)) as [[[]|e] s1] eqn:Hmk; [|done].
  destruct (copyFile mp (Join D "gitspace-plugin.toml") s1) as [[[]|e] s2] eqn:Hcp; [|done].
  intros Hloop.
  assert (Hhead : copyPlugin D mp sd [] s = (Ok tt, s2)).
  { unfold copyPlugin, RemoveAll. unfold_m. by rewrite Hmk, Hcp. }
  destruct (copyPlugin_outside P mp sd name [] s s2 HP eq_refl Hhead) as [H2 Hmp].
  pose proof (MkdirAll_ok _ _ _ _ Hmk) as HD1.
  pose proof (copyFile_keeps_dirs _ _ _ _ _ _ Hcp HD1) as HD2.
  split.
  - intros src Hs.
    destruct (copySources_content _ _ _ _ _ Hloop HD2 Hin Hsrc src Hs)
      as (src' & data & pm & pm' & H1 & H3 & H4 & H5).
    exists src', data, pm. split; [done|]. split; [done|].
    split; [rewrite <- H2; [done|by apply Hsrc]|].
    destruct (Hfiles _ _ _ (Hin src Hs) H5) as [-> _]. done.
  - intros Hnot. destruct (copyFile_ok _ _ _ _ Hcp) as (data & pm & pm' & H1 & H3).
    exists data, pm. split.
    + rewrite <- H2 by done.
      destruct (copyFile_change _ _ _ _ _ Hcp mp) as [E|[(E&_)|(E&_)]]; [congruence..|].
      destruct Hmp. by rewrite E.
    + pose proof (copySources_untouched _ _ _ _ _ _ _ _ Hloop Hnot H3) as H5.
      destruct (Hfiles _ _ _ HdstM H5) as [-> _]. done.
Qed.

Lemma copyPlugin_content_witness :
  let sc := (copyPlugin (demo_plugins ++ ["hello"])
               ["work"; "src"; "hello"; "gitspace-plugin.toml"] ["work"; "src"; "hello"]
               (Sources hello_manifest) demo_ready).2 in
  sc !! (demo_plugins ++ ["hello"; "main.go"]) = Some (FileNode "package main" perm_0644)
  ∧ sc !! (demo_plugins ++ ["hello"; "gitspace-plugin.toml"])
    = Some (FileNode hello_toml perm_0644).
Proof.
  intros sc.
  destruct (copyPlugin_content demo_plugins
              ["work"; "src"; "hello"; "gitspace-plugin.toml"] ["work"; "src"; "hello"]
              "hello" (Sources hello_manifest) demo_ready sc) as [Hs Hm].
  - apply demo_ready_dirs.
  - vm_compute; reflexivity.
  - intros src Hin. apply list_elem_of_In in Hin. destruct Hin as [<-|[]].
    apply is_prefix_false. vm_compute; reflexivity.
  - by_running.
  - split.
    + destruct (Hs (mk_source "main.go" "main")) as (src' & data & pm & Hin & _ & H1 & H2).
      { apply list_elem_of_In. by left. }
      apply list_elem_of_In in Hin. destruct Hin as [<-|[]].
      assert (E : demo_ready !! Join ["work"; "src"; "hello"]
                                  (Path (mk_source "main.go" "main"))
                  = Some (FileNode "package main" perm_0755)) by (vm_compute; reflexivity).
      rewrite E in H1. injection H1 as <- _. exact H2.
    + destruct Hm as (data & pm & H1 & H2).
      { intros Hin. apply list_elem_of_In in Hin. destruct Hin as [E|[]].
        vm_compute in E. discriminate E. }
      assert (E : demo_ready !! ["work"; "src"; "hello"; "gitspace-plugin.toml"]
                  = Some (FileNode hello_toml perm_0644)) by (vm_compute; reflexivity).
      rewrite E in H1. injection H1 as <- _. exact H2.
Defined.

(** ** Listing the installed plugins *)

Lemma ascii_compare_refl (a : ascii) : Ascii.compare a a = Eq.
Proof. apply N.compare_refl. Qed.

Lemma ascii_compare_lt_trans (a b c : ascii) :
  Ascii.compare a b = Lt → Ascii.compare b c = Lt → Ascii.compare a c = Lt.
Proof. unfold Ascii.compare. rewrite !N.compare_lt_iff. lia. Qed.

Lemma string_compare_refl (x : string) : String.compare x x = Eq.
Proof. induction x as [|a x IH]; simpl; [done|]. by rewrite ascii_compare_refl. Qed.

Lemma string_compare_lt_trans (x y z : string) :
  String.compare x y = Lt → String.compare y z = Lt → String.compare x z = Lt.
Proof.
  revert y z. induction x as [|a x IH]; intros [|b y] [|c z]; simpl; try done.
  destruct (Ascii.compare a b) eqn:Eab; try done;
    destruct (Ascii.compare b c) eqn:Ebc; try done.
  - apply Ascii.compare_eq_iff in Eab, Ebc. subst. rewrite ascii_compare_refl. apply IH.
  - apply Ascii.compare_eq_iff in Eab. subst. by rewrite Ebc.
  - apply Ascii.compare_eq_iff in Ebc. subst. by rewrite Eab.
  - by rewrite (ascii_compare_lt_trans _ _ _ Eab Ebc).
Qed.

Lemma string_leb_trans (x y z : string) :
  String.leb x y = true → String.leb y z = true → String.leb x z = true.
Proof.
  unfold String.leb.
  destruct (String.compare x y) eqn:E1; try done;
    destruct (String.compare y z) eqn:E2; try done; intros _ _.
  - apply String.compare_eq_iff in E1, E2. subst. by rewrite string_compare_refl.
  - apply String.compare_eq_iff in E1. subst. by rewrite E2.
  - apply String.compare_eq_iff in E2. subst. by rewrite E1.
  - by rewrite (string_compare_lt_trans _ _ _ E1 E2).
Qed.

Lemma entry_le_trans : Transitive entry_le.
Proof. intros a b c. apply string_leb_trans. Qed.

Lemma entry_le_total : Total entry_le.
Proof. intros a b. apply String.leb_total. Qed.

Lemma dir_entry_Some (dir : path) (kv : path * node) (e : DirEntry) :
  dir_entry dir kv = Some e ↔ kv.1 = dir ++ [e.1] ∧ e.2 = node_is_dir kv.2.
Proof.
  unfold dir_entry. destruct kv as [k n], e as [name d]. simpl. split.
  - destruct (last k) as [x|] eqn:El; [|done]. case_bool_decide; [|done].
    by intros [= <- <-].
  - intros [-> ->]. rewrite last_snoc. by rewrite bool_decide_true.
Qed.

Lemma elem_of_dir_entries (dir : path) (s : FS) (e : DirEntry) :
  e ∈ omap (dir_entry dir) (map_to_list s)
  ↔ ∃ n, s !! (dir ++ [e.1]) = Some n ∧ e.2 = node_is_dir n.
Proof.
  rewrite list_elem_of_omap. split.
  - intros ([k n] & Hin & He). apply elem_of_map_to_list in Hin.
    apply dir_entry_Some in He as [Hk He]. simpl in *. subst k. eauto.
  - intros (n & Hs & He). exists (dir ++ [e.1], n).
    split; [by apply elem_of_map_to_list|]. by apply dir_entry_Some.
Qed.

Lemma dir_entries_NoDup (dir : path) (l : list (path * node)) :
  NoDup l.*1 → NoDup (omap (dir_entry dir) l).*1.
Proof.
  induction l as [|a l IH]; simpl; [constructor|].
  rewrite NoDup_cons. intros [Ha Hl].
  destruct (dir_entry dir a) as [e|] eqn:E; [|by apply IH]. simpl.
  apply NoDup_cons. split; [|by apply IH].
  intros Hin. apply list_elem_of_fmap in Hin as (e' & He' & Hin).
  apply list_elem_of_omap in Hin as (kv & Hkv & Hf).
  apply dir_entry_Some in E as [E _]. apply dir_entry_Some in Hf as [Hf _].
  apply Ha. apply list_elem_of_fmap. exists kv. split; [congruence|done].
Qed.

Lemma elem_of_directory_names (entries : list DirEntry) (name : string) :
  name ∈ directory_names entries ↔ (name, true) ∈ entries.
Proof.
  induction entries as [|[n d] rest IH]; simpl.
  - by rewrite !elem_of_nil.
  - destruct d.
    + rewrite !elem_of_cons, IH.
      split; [intros [->|?]; [by left|by right]|intros [[= ->]|?]; [by left|by right]].
    + rewrite elem_of_cons, IH. split; [by right|]. by intros [[=]|?].
Qed.

Lemma directory_names_NoDup (entries : list DirEntry) :
  NoDup entries.*1 → NoDup (directory_names entries).
Proof.
  induction entries as [|[n d] rest IH]; simpl; [constructor|].
  rewrite NoDup_cons. intros [Hn Hr]. destruct d; [|by apply IH].
  apply NoDup_cons. split; [|by apply IH].
  rewrite elem_of_directory_names. intros Hin. apply Hn.
  apply list_elem_of_fmap. by exists (n, true).
Qed.

Lemma directory_names_sorted (entries : list DirEntry) :
  Sorted.StronglySorted entry_le entries →
  Sorted.StronglySorted (λ a b, String.leb a b = true) (directory_names entries).
Proof.
  induction 1 as [|[n d] rest Hs IH Hall]; simpl; [constructor|].
  destruct d; [|done]. constructor; [done|].
  apply Forall_forall. intros x Hx. apply elem_of_directory_names in Hx.
  rewrite Forall_forall in Hall. apply (Hall (x, true) Hx).
Qed.

(** What [os.ReadDir] returns for a directory. *)
Lemma ReadDir_ok (dir : path) (s : FS) :
  is_dir s dir = true →
  ∃ entries, ReadDir dir s = (Ok entries, s)
    ∧ (∀ e, e ∈ entries ↔ ∃ n, s !! (dir ++ [e.1]) = Some n ∧ e.2 = node_is_dir n)
    ∧ NoDup entries.*1
    ∧ Sorted.StronglySorted entry_le entries.
Proof.
  intros Hd. unfold ReadDir. rewrite Hd. eexists. split; [done|].
  pose proof (sorting.merge_sort_Permutation entry_le
                (omap (dir_entry dir) (map_to_list s))) as Hp.
  split; [|split].
  - intros e. rewrite Hp. apply elem_of_dir_entries.
  - rewrite Hp. apply dir_entries_NoDup, NoDup_fst_map_to_list.
  - apply (@sorting.StronglySorted_merge_sort _ entry_le _ entry_le_trans entry_le_total).
Qed.

Lemma directory_names_spec (dir : path) (s : FS) (entries : list DirEntry) :
  (∀ e, e ∈ entries ↔ ∃ n, s !! (dir ++ [e.1]) = Some n ∧ e.2 = node_is_dir n) →
  ∀ name, name ∈ directory_names entries
          ↔ ∃ pm, s !! (dir ++ [name]) = Some (DirNode pm).
Proof.
  intros H name. rewrite elem_of_directory_names, H. simpl. split.
  - intros ([pm|data pm] & Hs & Hd); [eauto|done].
  - intros [pm Hs]. eauto.
Qed.

Lemma listInstalledPlugins_ok (pluginsDir : path) (s : FS) :
  is_dir s pluginsDir = true →
  ∃ names,
    listInstalledPlugins pluginsDir s = (Ok (map (λ name, NewOption name name) names), s)
    ∧ (∀ name, name ∈ names ↔ ∃ pm, s !! (pluginsDir ++ [name]) = Some (DirNode pm))
    ∧ NoDup names
    ∧ Sorted.StronglySorted (λ a b, String.leb a b = true) names.
Proof.
  intros Hd. destruct (ReadDir_ok _ _ Hd) as (entries & Hr & Hin & Hnd & Hs).
  exists (directory_names entries). unfold listInstalledPlugins. unfold_m. rewrite Hr.
  split; [done|]. split; [by apply directory_names_spec|].
  split; [by apply directory_names_NoDup|by apply directory_names_sorted].
Qed.

Lemma is_dir_dirs_to (s : FS) (p : path) : dirs_to s p → is_dir s p = true.
Proof.
  intros H. unfold is_dir. destruct p as [|x p]; [done|].
  by destruct (H (x :: p)) as [pm ->].
Qed.

(** X8.  [listInstalledPlugins] on an existing directory changes
    nothing and offers exactly the sub-directories of that directory:
    regular files are skipped, each name is offered once, as key and as
    value, and the options come in the byte-wise order of the names.  On
    a path that does not exist it fails with the wrapped error of
    [os.ReadDir]. *)
Theorem listInstalledPlugins_lists (pluginsDir : path) (s : FS) :
  (is_dir s pluginsDir = true →
   ∃ names,
     listInstalledPlugins pluginsDir s
     = (Ok (map (λ name, NewOption name name) names), s)
     ∧ (∀ name, name ∈ names ↔ ∃ pm, s !! (pluginsDir ++ [name]) = Some (DirNode pm))
     ∧ NoDup names
     ∧ Sorted.StronglySorted (λ a b, String.leb a b = true) names)
  ∧ (is_dir s pluginsDir = false → is_file s pluginsDir = false →
     listInstalledPlugins pluginsDir s
     = (Err (Wrapf "failed to read plugins directory" (ENOENT pluginsDir)), s)).
Proof.
  split; [apply listInstalledPlugins_ok|].
  intros Hd Hf. unfold listInstalledPlugins, ReadDir. unfold_m. by rewrite Hd, Hf.
Qed.

Lemma listInstalledPlugins_lists_witness :
  ∃ names,
    listInstalledPlugins demo_plugins demo_installed
    = (Ok (map (λ name, NewOption name name) names), demo_installed)
    ∧ "hello" ∈ names.
Proof.
  destruct (listInstalledPlugins_lists demo_plugins demo_installed) as [H1 _].
  destruct H1 as (names & Hrun & Hin & _); [vm_compute; reflexivity|].
  exists names. split; [exact Hrun|]. apply Hin. exists perm_0755. vm_compute; reflexivity.
Defined.

(** X9.  [printInstalledPlugins] never fails once the plugins directory
    is there; it leaves the file system as [getPluginsDir] left it and
    prints, one per line and in order, exactly the names that
    [listInstalledPlugins] offers: the sub-directories of the plugins
    directory. *)
Theorem printInstalledPlugins_prints (w : World) (s sa : FS) (pluginsDir : path) :
  getPluginsDir w s = (Ok pluginsDir, sa) →
  ∃ names,
    printInstalledPlugins w s = (Ok names, sa)
    ∧ listInstalledPlugins pluginsDir sa
      = (Ok (map (λ name, NewOption name name) names), sa)
    ∧ (∀ name, name ∈ names ↔ ∃ pm, sa !! (pluginsDir ++ [name]) = Some (DirNode pm)).
Proof.
  intros Hget. destruct (getPluginsDir_ok _ _ _ _ Hget) as [Hd _].
  destruct (ReadDir_ok _ _ (is_dir_dirs_to _ _ Hd)) as (entries & Hr & Hin & _).
  exists (directory_names entries).
  unfold printInstalledPlugins, listInstalledPlugins. unfold_m. rewrite Hget, Hr.
  split; [done|]. split; [done|]. by apply directory_names_spec.
Qed.

Lemma printInstalledPlugins_prints_witness :
  ∃ names,
    (printInstalledPlugins demo_world demo_installed).1 = Ok names ∧ "hello" ∈ names.
Proof.
  destruct (printInstalledPlugins_prints demo_world demo_installed
              (getPluginsDir demo_world demo_installed).2 demo_plugins)
    as (names & Hrun & _ & Hin); [by_running|].
  exists names. split; [by rewrite Hrun|]. apply Hin. exists perm_0755.
  vm_compute; reflexivity.
Defined.

Lemma goModSetup_keeps_dir (w : World) (D : path) (name : string)
    (t t' : FS) (r : result unit) :
  commands_keep_dir w → goModSetup w D name t = (r, t') →
  is_dir t D = true → is_dir t' D = true.
Proof.
  intros Hw. unfold goModSetup, run_command. unfold_m.
  destruct (not_exist t (Join D "go.mod")).
  - destruct (CombinedOutput w _ (Some D) t) as [[o1 [e1|]] t1] eqn:E1.
    { intros [= _ <-]. by eapply Hw. }
    destruct (CombinedOutput w _ (Some D) t1) as [[o2 [e2|]] t2] eqn:E2.
    { intros [= _ <-] Hd. eapply Hw; [exact E2|]. by eapply Hw. }
    destruct (CombinedOutput w _ (Some D) t2) as [[o3 [e3|]] t3] eqn:E3;
      intros [= _ <-] Hd; (eapply Hw; [exact E3|]); (eapply Hw; [exact E2|]); by eapply Hw.
  - destruct (CombinedOutput w _ (Some D) t) as [[o2 [e2|]] t2] eqn:E2.
    { intros [= _ <-]. by eapply Hw. }
    destruct (CombinedOutput w _ (Some D) t2) as [[o3 [e3|]] t3] eqn:E3;
      intros [= _ <-] Hd; (eapply Hw; [exact E3|]); by eapply Hw.
Qed.

(** X10.  An installed plugin can be found.  For a local source whose
    manifest has a plain name and declares only sources that are installed
    inside the destination directory, and with external commands that
    write only inside the directory they run in and do not remove it:
    after a successful [installPlugin], [listInstalledPlugins] on the
    plugins directory succeeds and the manifest's name is among the
    options, so [runPlugin] offers it. *)
Theorem installed_plugin_is_listed (w : World) (source : string) (s0 sa s1 : FS)
    (pluginsDir manifestPath sourceDir : path) (m : PluginManifest) :
  HasPrefix source "catalog://" = false →
  HasPrefix source "http://" = false →
  HasPrefix source "https://" = false →
  commands_confined w →
  commands_keep_dir w →
  getPluginsDir w s0 = (Ok pluginsDir, sa) →
  resolveLocal w source sa = (Ok (manifestPath, sourceDir), sa) →
  (loadPluginManifest w manifestPath sa).1 = Ok m →
  plain_name (Name m) = true →
  sources_confined (Join pluginsDir (Name m)) (Sources m) = true →
  installPlugin w source s0 = (Ok tt, s1) →
  ∃ names,
    listInstalledPlugins pluginsDir s1
    = (Ok (map (λ name, NewOption name name) names), s1)
    ∧ Name m ∈ names.
Proof.
  intros Hc Hh Hs Hw Hk Hget Hres Hload Hname Hconf.
  rewrite installPlugin_local by done. rewrite Hget, Hres. intros Hinst.
  destruct (getPluginsDir_ok _ _ _ _ Hget) as [HP _].
  destruct (installManifest_again _ _ _ _ _ _ _ Hw HP Hload Hname Hconf Hinst)
    as (_ & Hout & _).
  rewrite (Join_plain _ _ Hname) in Hout.
  assert (HP1 : dirs_to s1 pluginsDir).
  { intros q Hq Hne. rewrite Hout; [by apply HP|].
    intros HD. apply (prefix_snoc_not pluginsDir (Name m)). by etrans. }
  destruct (listInstalledPlugins_ok _ _ (is_dir_dirs_to _ _ HP1))
    as (names & Hrun & Hin & _).
  exists names. split; [done|]. apply Hin.
  assert (Hd : is_dir s1 (pluginsDir ++ [Name m]) = true).
  { revert Hinst. unfold installManifest. unfold_m.
    destruct (loadPluginManifest w manifestPath sa) as [[m'|e] s0'] eqn:El; [|done].
    apply loadPluginManifest_state in El as ->. simpl in Hload. simplify_eq.
    rewrite (Join_plain _ _ Hname).
    destruct (copyPlugin _ _ _ _ sa) as [[[]|e] sc] eqn:Ec; [|done].
    intros Hgo. eapply goModSetup_keeps_dir; [done|exact Hgo|].
    revert Ec. unfold copyPlugin, RemoveAll. unfold_m.
    destruct (MkdirAll _ perm_0755 _) as [[[]|e] t1] eqn:Hmk; [|done].
    destruct (copyFile _ _ t1) as [[[]|e] t2] eqn:Hcp; [|done]. intros Hloop.
    apply is_dir_dirs_to.
    eapply (copySources_inv (λ t, dirs_to t (pluginsDir ++ [Name m]))); [|exact Hloop|].
    - intros src t r t' _ Hcf. by eapply copyFile_keeps_dirs.
    - eapply copyFile_keeps_dirs; [exact Hcp|]. by eapply MkdirAll_ok. }
  unfold is_dir in Hd. destruct (pluginsDir ++ [Name m]) eqn:E.
  { by destruct pluginsDir. }
  destruct (s1 !! (s :: l)) as [[pm|]|]; [eauto|done..].
Qed.

Lemma go_tool_keeps_dir : commands_keep_dir demo_world.
Proof.
  intros argv dir s out s' H Hd. simpl in H. unfold go_tool in H.
  assert (Hne : dir ++ ["go.mod"] ≠ dir).
  { intros E. apply (f_equal length) in E. rewrite length_app in E. simpl in E. lia. }
  assert (Hins : ∀ n, is_dir (<[dir ++ ["go.mod"] := n]> s) dir = true).
  { intros n. unfold is_dir in *. destruct dir; [done|]. by rewrite lookup_insert_ne. }
  unfold go_mod_tidy, go_mod_init, go_mod_edit_go in H.
  repeat case_match; simplify_eq; try done; apply Hins.
Qed.

Lemma installed_plugin_is_listed_witness :
  ∃ names,
    listInstalledPlugins demo_plugins demo_installed
    = (Ok (map (λ name, NewOption name name) names), demo_installed)
    ∧ Name hello_manifest ∈ names.
Proof.
  apply (installed_plugin_is_listed demo_world "src/hello" demo_fs demo_ready
           demo_installed demo_plugins
           ["work"; "src"; "hello"; "gitspace-plugin.toml"] ["work"; "src"; "hello"]
           hello_manifest);
    [by_running|by_running|by_running|apply go_tool_confined|apply go_tool_keeps_dir
    |by_running..].
Defined.

Lemma prefix_snoc_snoc (p : path) (x y : string) :
  (p ++ [x]) `prefix_of` (p ++ [y]) ↔ x = y.
Proof.
  split; [|by intros ->].
  intros [k E]. rewrite <- app_assoc in E. apply app_inv_head in E.
  simpl in E. by injection E.
Qed.

(** X11.  An uninstalled plugin is no longer offered, and nothing else
    changes in the list: after [uninstallPlugin] on a plain name,
    [listInstalledPlugins] offers exactly the other sub-directories that
    the plugins directory had. *)
Theorem uninstalled_plugin_not_listed (w : World) (name : string) (s sa s1 : FS)
    (pluginsDir : path) :
  getPluginsDir w s = (Ok pluginsDir, sa) →
  plain_name name = true →
  uninstallPlugin w name s = (Ok tt, s1) →
  ∃ names,
    listInstalledPlugins pluginsDir s1
    = (Ok (map (λ name, NewOption name name) names), s1)
    ∧ ∀ n, n ∈ names ↔ n ≠ name ∧ ∃ pm, sa !! (pluginsDir ++ [n]) = Some (DirNode pm).
Proof.
  intros Hget Hname. rewrite (uninstallPlugin_run _ _ _ _ _ Hget).
  rewrite (Join_plain _ _ Hname). intros [= <-].
  destruct (getPluginsDir_ok _ _ _ _ Hget) as [HP _].
  assert (HP1 : dirs_to (remove_tree (pluginsDir ++ [name]) sa) pluginsDir).
  { intros q Hq Hne. rewrite remove_tree_outside; [by apply HP|].
    intros HD. apply (prefix_snoc_not pluginsDir name). by etrans. }
  destruct (listInstalledPlugins_ok _ _ (is_dir_dirs_to _ _ HP1))
    as (names & Hrun & Hin & _).
  exists names. split; [done|]. intros n. rewrite Hin, remove_tree_lookup.
  destruct (is_prefix (pluginsDir ++ [name]) (pluginsDir ++ [n])) eqn:E.
  - apply is_prefix_spec, prefix_snoc_snoc in E. subst n.
    split; [by intros [pm ?]|by intros [? _]].
  - apply is_prefix_false in E. rewrite prefix_snoc_snoc in E.
    split; [intros H; split; [congruence|done]|by intros [_ ?]].
Qed.

Lemma uninstalled_plugin_not_listed_witness :
  ∃ names,
    (listInstalledPlugins demo_plugins
       (uninstallPlugin demo_world "hello" demo_installed).2).1
    = Ok (map (λ name, NewOption name name) names)
    ∧ "hello" ∉ names.
Proof.
  destruct (uninstalled_plugin_not_listed demo_world "hello" demo_installed
              (getPluginsDir demo_world demo_installed).2
              (uninstallPlugin demo_world "hello" demo_installed).2 demo_plugins)
    as (names & Hrun & Hin); [by_running|vm_compute; reflexivity|by_running|].
  exists names. split; [by rewrite Hrun|]. intros H. apply Hin in H as [Hne _].
  exact (Hne eq_refl).
Defined.

(** ** Running a plugin *)

(** X12.  With no sub-directory in the plugins directory, [runPlugin]
    returns without error and without asking anything of its host: no
    form is shown, nothing is compiled or loaded, and the file system is
    as [getPluginsDir] left it. *)
Theorem runPlugin_nothing_installed (w : World) (h : Host) (s sa : FS) (pluginsDir : path) :
  getPluginsDir w s = (Ok pluginsDir, sa) →
  (∀ name pm, sa !! (pluginsDir ++ [name]) ≠ Some (DirNode pm)) →
  runPlugin w h s = (Ok tt, sa).
Proof.
  intros Hget Hnone. destruct (getPluginsDir_ok _ _ _ _ Hget) as [HP _].
  destruct (listInstalledPlugins_ok _ _ (is_dir_dirs_to _ _ HP))
    as (names & Hrun & Hin & _).
  unfold runPlugin. unfold_m. rewrite Hget, Hrun.
  destruct names as [|n names]; [done|].
  destruct (proj1 (Hin n)) as [pm Hpm]; [by left|]. by destruct (Hnone n pm).
Qed.

Lemma runPlugin_nothing_installed_witness :
  runPlugin demo_world demo_host demo_fs = (Ok tt, demo_ready).
Proof.
  apply (runPlugin_nothing_installed demo_world demo_host demo_fs demo_ready demo_plugins);
    [by_running|].
  intros name pm H.
  assert (E : (listInstalledPlugins demo_plugins demo_ready).1 = Ok [])
    by (vm_compute; reflexivity).
  destruct (listInstalledPlugins_ok demo_plugins demo_ready) as (names & Hrun & Hin & _);
    [vm_compute; reflexivity|].
  rewrite Hrun in E. simpl in E. injection E as E.
  destruct names; [|discriminate E].
  assert (Hn : name ∈ @nil string) by (apply Hin; eauto). by apply elem_of_nil in Hn.
Defined.

Lemma elem_of_Walk (root : path) (s : FS) (q : path) (n : node) :
  (q, n) ∈ Walk root s ↔ s !! q = Some n ∧ reached root s q = true.
Proof.
  unfold Walk. rewrite sorting.merge_sort_Permutation, list_elem_of_filter, elem_of_map_to_list.
  simpl. tauto.
Qed.

Lemma reached_prefix (root : path) (s : FS) (q : path) :
  reached root s q = true → root `prefix_of` q.
Proof. unfold reached. intros [H _]%andb_prop. by apply is_prefix_spec. Qed.

Lemma is_go_source_spec (q : path) (n : node) :
  is_go_source (q, n) = true
  ↔ ∃ data pm name, n = FileNode data pm ∧ last q = Some name ∧ HasSuffix name ".go" = true.
Proof.
  unfold is_go_source. simpl. split.
  - destruct n as [pm|data pm]; [done|]. destruct (last q) as [name|]; [|done].
    intros H. by exists data, pm, name.
  - intros (data & pm & name & -> & -> & H). done.
Qed.

(** X13.  Without a Go source there is nothing to run: in an existing
    plugin directory below which no regular file has a name ending in
    [.go], [compileAndRunPlugin] fails with the no-source error, whatever
    the host; nothing is compiled or loaded and the file system is
    unchanged. *)
Theorem compile_needs_go_source (h : Host) (pluginDir : path) (pluginName : string)
    (s : FS) :
  is_dir s pluginDir = true →
  (∀ q data pm name, pluginDir `prefix_of` q → s !! q = Some (FileNode data pm) →
                     last q = Some name → HasSuffix name ".go" = false) →
  compileAndRunPlugin h pluginDir pluginName s
  = (Err (Errorf "no Go source file found in plugin directory"), s).
Proof.
  intros Hd Hnone. unfold compileAndRunPlugin, findMainFile. unfold_m. rewrite Hd. simpl.
  destruct (find is_go_source (Walk pluginDir s)) as [[q n]|] eqn:E; [|done].
  apply find_some in E as [Hin Hgo]. apply list_elem_of_In, elem_of_Walk in Hin as [Hs Hr].
  apply is_go_source_spec in Hgo as (data & pm & name & -> & Hl & Hsuf).
  rewrite (Hnone q data pm name (reached_prefix _ _ _ Hr) Hs Hl) in Hsuf. done.
Qed.

Lemma forall_entries (s : FS) (P : path → node → bool) :
  forallb (λ kv, P kv.1 kv.2) (map_to_list s) = true →
  ∀ q n, s !! q = Some n → P q n = true.
Proof.
  intros H q n Hs. rewrite forallb_forall in H. apply (H (q, n)).
  apply list_elem_of_In. by apply elem_of_map_to_list.
Qed.

Lemma compile_needs_go_source_witness :
  compileAndRunPlugin demo_host ["work"; "src"; "bare"] "bare" demo_fs
  = (Err (Errorf "no Go source file found in plugin directory"), demo_fs).
Proof.
  apply compile_needs_go_source; [vm_compute; reflexivity|].
  intros q data pm name Hq Hs Hl.
  pose proof (forall_entries demo_fs
                (λ q n, negb (is_prefix ["work"; "src"; "bare"] q)
                        || negb (is_go_source (q, n)))
                ltac:(vm_compute; reflexivity) q _ Hs) as H.
  cbv beta in H. apply is_prefix_spec in Hq. rewrite Hq in H.
  unfold is_go_source in H. simpl in H.
  rewrite Hl in H. destruct (HasSuffix name ".go"); [discriminate H|reflexivity].
Defined.

Lemma path_leb_refl (p : path) : path_leb p p = true.
Proof. induction p as [|x p IH]; simpl; [done|]. by rewrite string_compare_refl. Qed.

Lemma path_leb_total (p q : path) : path_leb p q = true ∨ path_leb q p = true.
Proof.
  revert q. induction p as [|x p IH]; intros [|y q]; simpl; [by left..|by right|].
  rewrite (String.compare_antisym y x).
  destruct (String.compare x y); simpl; [apply IH|by left|by right].
Qed.

Lemma path_leb_trans (p q r : path) :
  path_leb p q = true → path_leb q r = true → path_leb p r = true.
Proof.
  revert q r. induction p as [|x p IH]; intros [|y q] [|z r]; simpl; try done.
  destruct (String.compare x y) eqn:E1; try done;
    destruct (String.compare y z) eqn:E2; try done.
  - apply String.compare_eq_iff in E1, E2. subst. rewrite string_compare_refl. apply IH.
  - apply String.compare_eq_iff in E1. subst. by rewrite E2.
  - apply String.compare_eq_iff in E2. subst. by rewrite E1.
  - by rewrite (string_compare_lt_trans _ _ _ E1 E2).
Qed.

Lemma walk_le_trans : Transitive walk_le.
Proof. intros a b c. apply path_leb_trans. Qed.

Lemma walk_le_total : Total walk_le.
Proof. intros a b. apply path_leb_total. Qed.

Lemma Walk_sorted (root : path) (s : FS) : Sorted.StronglySorted walk_le (Walk root s).
Proof.
  apply (@sorting.StronglySorted_merge_sort _ walk_le _ walk_le_trans walk_le_total).
Qed.

(** The first hit of a search through a sorted list is the least hit. *)
Lemma find_least {A : Type} (R : relation A) (f : A → bool) (l : list A) (x : A) :
  Reflexive R → Sorted.StronglySorted R l → find f l = Some x →
  ∀ y, y ∈ l → f y = true → R x y.
Proof.
  intros HR Hs. induction Hs as [|a l Hs IH Hall]; simpl; [done|].
  rewrite Forall_forall in Hall.
  destruct (f a) eqn:Ea.
  - intros [= <-] y Hy _. apply elem_of_cons in Hy as [->|Hy]; [done|by apply Hall].
  - intros Hf y Hy Hfy. apply elem_of_cons in Hy as [->|Hy]; [congruence|by apply IH].
Qed.

Lemma findMainFile_eq (pluginDir : path) (s : FS) (r : result (option path)) :
  (findMainFile pluginDir s).1 = r → findMainFile pluginDir s = (r, s).
Proof.
  unfold findMainFile.
  by destruct (negb (is_dir s pluginDir) && negb (is_file s pluginDir)); intros <-.
Qed.

(** X14.  The file that [compileAndRunPlugin] compiles is the first Go
    file of the walk: when the search of the plugin directory finds a
    file, that file is a regular file below the plugin directory whose
    name ends in [.go], reached through directories only, and it comes
    before every other such file in the order of [filepath.Walk].  The
    manifest and its entry points play no part in the choice. *)
Theorem findMainFile_first (pluginDir : path) (s s' : FS) (mainFile : path) :
  findMainFile pluginDir s = (Ok (Some mainFile), s') →
  s' = s
  ∧ (∃ data pm name,
       s !! mainFile = Some (FileNode data pm)
       ∧ last mainFile = Some name
       ∧ HasSuffix name ".go" = true
       ∧ pluginDir `prefix_of` mainFile
       ∧ reached pluginDir s mainFile = true)
  ∧ (∀ q data pm name,
       s !! q = Some (FileNode data pm) → last q = Some name →
       HasSuffix name ".go" = true → reached pluginDir s q = true →
       path_leb mainFile q = true).
Proof.
  unfold findMainFile.
  destruct (negb (is_dir s pluginDir) && negb (is_file s pluginDir)); [done|].
  destruct (find is_go_source (Walk pluginDir s)) as [[m n]|] eqn:E; [|done].
  simpl. intros [= <- <-]. split; [done|].
  pose proof (find_some _ _ E) as [Hin Hgo].
  apply list_elem_of_In, elem_of_Walk in Hin as [Hs Hr].
  apply is_go_source_spec in Hgo as (data & pm & name & -> & Hl & Hsuf).
  split.
  - exists data, pm, name. repeat split; try done. by apply (reached_prefix _ s).
  - intros q data' pm' name' Hq Hl' Hsuf' Hr'.
    apply (find_least walk_le is_go_source (Walk pluginDir s) (m, FileNode data pm)
             (λ a, path_leb_refl a.1) (Walk_sorted _ _) E (q, FileNode data' pm')).
    + by apply elem_of_Walk.
    + apply is_go_source_spec. by exists data', pm', name'.
Qed.

Lemma findMainFile_first_witness :
  findMainFile ["p"] walk_fs = (Ok (Some ["p"; "cmd"; "z.go"]), walk_fs)
  ∧ path_leb ["p"; "cmd"; "z.go"] ["p"; "main.go"] = true.
Proof.
  assert (H : findMainFile ["p"] walk_fs = (Ok (Some ["p"; "cmd"; "z.go"]), walk_fs)).
  { apply findMainFile_eq. vm_compute; reflexivity. }
  split; [exact H|].
  destruct (findMainFile_first ["p"] walk_fs walk_fs ["p"; "cmd"; "z.go"] H)
    as (_ & _ & Hleast).
  apply (Hleast ["p"; "main.go"] "package main" perm_0644 "main.go");
    vm_compute; reflexivity.
Defined.

(** ** Remote sources *)

(** X15.  An [http://] or [https://] source is cloned into a fresh
    temporary directory, and that directory is removed on every way out:
    whatever the outcome of [installPlugin], nothing is left at or below
    it.  If [git clone] fails, the error is returned wrapped and nothing
    else is done: the state is the one [git] left, without the temporary
    directory.  If it succeeds, the plugin is installed from
    [<temp>/gitspace-plugin.toml] with the temporary directory as source
    root. *)
Theorem remote_install_cleans_up (w : World) (source : string) (s sa s1 : FS)
    (pluginsDir tempDir : path) :
  HasPrefix source "catalog://" = false →
  HasPrefix source "http://" || HasPrefix source "https://" = true →
  getPluginsDir w s = (Ok pluginsDir, sa) →
  MkdirTemp w sa = (Ok tempDir, s1) →
  (∀ q, tempDir `prefix_of` q → (installPlugin w source s).2 !! q = None)
  ∧ (∀ out e s2,
       CombinedOutput w ["git"; "clone"; source; path_string tempDir] None s1
       = ((out, Some e), s2) →
       installPlugin w source s
       = (Err (Wrapf "failed to clone remote repository"
                 (WrapOutput "git clone failed" e out)),
          remove_tree tempDir s2))
  ∧ (∀ out s2,
       CombinedOutput w ["git"; "clone"; source; path_string tempDir] None s1
       = ((out, None), s2) →
       installPlugin w source s
       = let '(r, s3) :=
           installManifest w pluginsDir (Join tempDir "gitspace-plugin.toml") tempDir s2 in
         (r, remove_tree tempDir s3)).
Proof.
  intros Hc Hr Hget Htmp.
  assert (Hrun : installPlugin w source s
    = let '(r, s3) :=
        bind (wrap "failed to clone remote repository" (gitClone w source tempDir))
          (λ _, installManifest w pluginsDir (Join tempDir "gitspace-plugin.toml") tempDir)
          s1 in
      (r, remove_tree tempDir s3)).
  { unfold installPlugin, installPlugin_body. unfold_m. rewrite Hget, Hc, Hr, Htmp. done. }
  split; [|split].
  - intros q Hq. rewrite Hrun. destruct (bind _ _ s1) as [r s3]. simpl.
    by apply remove_tree_below.
  - intros out e s2 Hgit. rewrite Hrun. unfold gitClone, run_command. unfold_m.
    by rewrite Hgit.
  - intros out s2 Hgit. rewrite Hrun. unfold gitClone, run_command. unfold_m.
    by rewrite Hgit.
Qed.

Lemma pair_eq {A B : Type} (x : A * B) (a : A) : x.1 = a → x = (a, x.2).
Proof. intros <-. by destruct x. Qed.

Lemma remote_install_cleans_up_witness :
  (installPlugin demo_world "https://example.com/plugin.git" demo_fs).1
  = Err (Wrapf "failed to clone remote repository"
           (WrapOutput "git clone failed" (External "command not available") ""))
  ∧ (installPlugin demo_world "https://example.com/plugin.git" demo_fs).2
      !! ["tmp"; "gitspace-plugin-1"] = None.
Proof.
  destruct (remote_install_cleans_up demo_world "https://example.com/plugin.git"
              demo_fs demo_ready (MkdirTemp demo_world demo_ready).2
              demo_plugins ["tmp"; "gitspace-plugin-1"])
    as (Hclean & Hfail & _); [by_running..|].
  split; [|by apply Hclean].
  rewrite (Hfail "" (External "command not available")
             (CombinedOutput demo_world
                ["git"; "clone"; "https://example.com/plugin.git";
                 path_string ["tmp"; "gitspace-plugin-1"]]
                None (MkdirTemp demo_world demo_ready).2).2).
  - reflexivity.
  - apply pair_eq. vm_compute; reflexivity.
Defined.

(** ** Downloads and the catalog *)

Lemma downloadFile_cases (w : World) (url : string) (p : path) (s s' : FS)
    (r : result unit) :
  downloadFile w url p s = (r, s') →
  (∃ e, r = Err e ∧ s' = s)
  ∨ (r = Ok tt
     ∧ ∃ resp pm,
         http_Get w url = Ok resp ∧ StatusCode resp = 200
         ∧ is_dir s (Dir p) = true
         ∧ s' = <[p := FileNode (Body resp) pm]> s
         ∧ ((s !! p = None ∧ pm = perm_0666) ∨ ∃ old, s !! p = Some (FileNode old pm))).
Proof.
  unfold downloadFile, WriteFile. destruct (http_Get w url) as [resp|e].
  2:{ intros [= <- <-]. left. eauto. }
  destruct (Nat.eqb (StatusCode resp) 200) eqn:Est; simpl.
  2:{ intros [= <- <-]. left. eauto. }
  apply Nat.eqb_eq in Est.
  destruct (is_dir s (Dir p)) eqn:Ed; simpl.
  2:{ intros [= <- <-]. left. eauto. }
  destruct (s !! p) as [[pm|old pm]|] eqn:Ep.
  - intros [= <- <-]. left. eauto.
  - intros [= <- <-]. right. split; [done|]. exists resp, pm. eauto 10.
  - destruct p as [|x p]; intros [= <- <-]; [left; eauto|].
    right. split; [done|]. exists resp, perm_0666. eauto 10.
Qed.

Lemma downloadFile_keeps_dir (w : World) (url : string) (p : path) (s s' : FS)
    (r : result unit) (d : path) :
  downloadFile w url p s = (r, s') → is_dir s' d = is_dir s d.
Proof.
  intros H. destruct (downloadFile_cases _ _ _ _ _ _ H)
    as [(e & _ & ->)|(_ & resp & pm & _ & _ & _ & -> & Hp)]; [done|].
  unfold is_dir. destruct d as [|x d]; [done|].
  destruct (decide (x :: d = p)) as [<-|Hne]; [|by rewrite lookup_insert_ne].
  rewrite lookup_insert_eq. by destruct Hp as [[-> _]|[old ->]].
Qed.



Lemma downloadSources_inv (w : World) (Φ : FS → Prop) (raw : string) (tempDir : path)
    (sources : list Source) :
  (∀ src s r s', src ∈ sources →
     downloadFile w (raw +:+ "/" +:+ Path src) (Join tempDir (Path src)) s = (r, s') →
     Φ s → Φ s') →
  ∀ s r s', downloadSources w raw tempDir sources s = (r, s') → Φ s → Φ s'.
Proof.
  induction sources as [|src rest IH]; intros Hstep s r s'; simpl.
  - by intros [= _ <-].
  - unfold_m. destruct (downloadFile w _ _ s) as [[[]|e] s1] eqn:Hd.
    + intros Hrest HΦ. eapply IH; [|exact Hrest|].
      * intros src' t r' t' Hin. apply Hstep. by right.
      * eapply Hstep; [by left|exact Hd|done].
    + intros [= _ <-] HΦ. eapply Hstep; [by left|exact Hd|done].
Qed.

Lemma downloadSources_keeps_dir (w : World) (raw : string) (tempDir : path)
    (sources : list Source) (s s' : FS) (r : result unit) (d : path) :
  downloadSources w raw tempDir sources s = (r, s') → is_dir s' d = is_dir s d.
Proof.
  intros H. eapply (downloadSources_inv w (λ t, is_dir t d = is_dir s d)); [|exact H|done].
  intros src t r' t' _ Hd <-. by eapply downloadFile_keeps_dir.
Qed.

(** A download into a directory that does not exist fails: nothing
    creates the directory. *)
Lemma downloadSources_no_parent (w : World) (raw : string) (tempDir : path)
    (sources : list Source) (src : Source) (s : FS) :
  src ∈ sources → is_dir s (Dir (Join tempDir (Path src))) = false →
  ∃ e s', downloadSources w raw tempDir sources s = (Err e, s').
Proof.
  intros Hin Hd. revert s Hd. induction sources as [|src0 rest IH]; intros s Hd.
  - by apply elem_of_nil in Hin.
  - simpl. unfold_m.
    destruct (downloadFile w _ _ s) as [[[]|e] s1] eqn:Hdl; [|eauto].
    apply elem_of_cons in Hin as [->|Hin].
    + destruct (downloadFile_cases _ _ _ _ _ _ Hdl)
        as [(e & ? & _)|(_ & resp & pm & _ & _ & Hp & _)]; [done|congruence].
    + apply IH; [done|]. by rewrite (downloadFile_keeps_dir _ _ _ _ _ _ _ Hdl).
Qed.

Lemma MkdirTemp_ok (w : World) (s s1 : FS) (tempDir : path) :
  MkdirTemp w s = (Ok tempDir, s1) →
  tempDir = TempName w ∧ tempDir ≠ [] ∧ s !! tempDir = None
  ∧ s1 = <[tempDir := DirNode perm_0700]> s.
Proof.
  unfold MkdirTemp. destruct (negb (is_dir s (Dir (TempName w)))); [done|].
  destruct (TempName w) as [|x p] eqn:E; [by destruct (s !! [])|].
  destruct (s !! (x :: p)) eqn:El; [done|]. by intros [= <- <-].
Qed.

(** X17.  The catalog installer cannot install a source that lives in
    a sub-directory.  [downloadFile] creates the file but never its
    directory, so when the downloaded manifest declares a source whose
    place in the temporary directory is inside a directory that does not
    exist, [installFromGitspaceCatalog] fails, even with every download
    answered by status 200; the temporary directory is removed. *)
Theorem catalog_nested_source_fails (w : World) (install : string → M unit)
    (catalogItem : string) (s s1 : FS) (catalog : GitspaceCatalog) (plugin : Plugin)
    (tempDir : path) (resp : Response) (m : PluginManifest) (src : Source) :
  FetchGitspaceCatalog w "ssotops" "gitspace-catalog" = Ok catalog →
  Plugins catalog !! catalogItem = Some plugin →
  plugin_Path plugin ≠ "" →
  MkdirTemp w s = (Ok tempDir, s1) →
  http_Get w (("https://raw.githubusercontent.com/" +:+ "ssotops" +:+ "/"
               +:+ "gitspace-catalog" +:+ "/" +:+ "master" +:+ "/" +:+ plugin_Path plugin)
              +:+ "/gitspace-plugin.toml") = Ok resp →
  toml_Unmarshal w (Body resp) = Ok m →
  src ∈ Sources m →
  Dir (Join tempDir (Path src)) ≠ tempDir →
  is_dir s (Dir (Join tempDir (Path src))) = false →
  (∃ e, (installFromGitspaceCatalog w install catalogItem s).1 = Err e)
  ∧ ∀ q, tempDir `prefix_of` q →
         (installFromGitspaceCatalog w install catalogItem s).2 !! q = None.
Proof.
  intros Hfetch Hitem Hpath Htmp Hget Hdec Hin Hne Hd.
  unfold installFromGitspaceCatalog. rewrite Hfetch, Hitem.
  apply String.eqb_neq in Hpath. rewrite Hpath. cbv zeta.
  set (raw := "https://raw.githubusercontent.com/" +:+ "ssotops" +:+ "/"
              +:+ "gitspace-catalog" +:+ "/" +:+ "master" +:+ "/" +:+ plugin_Path plugin)
    in *.
  unfold_m. rewrite Htmp.
  destruct (MkdirTemp_ok _ _ _ _ Htmp) as (_ & _ & _ & Hs1).
  assert (Hd1 : is_dir s1 (Dir (Join tempDir (Path src))) = false).
  { rewrite Hs1. unfold is_dir in *. destruct (Dir (Join tempDir (Path src))); [done|].
    by rewrite lookup_insert_ne. }
  destruct (downloadFile w (raw +:+ "/gitspace-plugin.toml")
              (Join tempDir "gitspace-plugin.toml") s1) as [[[]|e] s2] eqn:Hdm.
  2:{ simpl. split; [eauto|]. intros q Hq. by apply remove_tree_below. }
  destruct (loadPluginManifest w (Join tempDir "gitspace-plugin.toml") s2)
    as [[m'|e] s3] eqn:Hl.
  2:{ simpl. split; [eauto|]. intros q Hq. by apply remove_tree_below. }
  destruct (downloadFile_ok _ _ _ _ _ _ Hget Hdm) as [pm Hfile].
  rewrite (loadPluginManifest_accepts w _ _ _ _ _ Hfile Hdec) in Hl.
  assert (m' = m ∧ s3 = s2) as [-> ->] by (split; congruence).
  assert (Hd2 : is_dir s2 (Dir (Join tempDir (Path src))) = false).
  { by rewrite (downloadFile_keeps_dir _ _ _ _ _ _ _ Hdm). }
  destruct (downloadSources_no_parent w raw tempDir _ _ s2 Hin Hd2) as (e & s4 & ->).
  simpl. split; [eauto|]. intros q Hq. by apply remove_tree_below.
Qed.

Lemma catalog_nested_source_fails_witness :
  ∃ e, (installFromGitspaceCatalog catalog_world (installPlugin catalog_world)
          "nested" demo_ready).1 = Err e.
Proof.
  destruct (catalog_nested_source_fails catalog_world (installPlugin catalog_world)
              "nested" demo_ready (MkdirTemp catalog_world demo_ready).2 two_catalog
              {| plugin_Path := "plugins/nested"; plugin_Version := "1";
                 plugin_Description := "" |}
              ["tmp"; "gitspace-plugin-1"] (ok_response nested_toml) nested_manifest
              (mk_source "cmd/main.go" "main")) as [Herr _];
    [by_running|by_running|discriminate|by_running|by_running|by_running
    |apply list_elem_of_In; by left|vm_compute; discriminate|by_running|exact Herr].
Defined.

(** ** From the catalog to the local installer *)

Lemma split_slash_append (e r : string) :
  split_slash e = [e] →
  split_slash (e +:+ r)
  = match split_slash r with
    | x :: xs => (e +:+ x) :: xs
    | [] => [e]
    end.
Proof.
  induction e as [|c e IH].
  - intros _. change ("" +:+ r) with r. pose proof (split_slash_nonempty r).
    destruct (split_slash r); done.
  - change (String c e +:+ r) with (String c (e +:+ r)). simpl.
    pose proof (split_slash_nonempty e) as Hne.
    destruct (Ascii.eqb c "/"%char).
    { intros H. destruct (split_slash e); simplify_eq. }
    destruct (split_slash e) as [|x [|y l]] eqn:E; intros H; simplify_eq.
    rewrite IH by done. pose proof (split_slash_nonempty r).
    destruct (split_slash r); [done|reflexivity].
Qed.

Lemma plain_name_split (e : string) : plain_name e = true → split_slash e = [e].
Proof.
  unfold plain_name. destruct (split_slash e) as [|x [|? ?]] eqn:E; try done.
  by apply split_slash_single in E as ->.
Qed.

Lemma append_empty_r (e : string) : e +:+ "" = e.
Proof.
  induction e as [|c e IH]; [done|].
  change (String c e +:+ "") with (String c (e +:+ "")). by rewrite IH.
Qed.

Lemma split_slash_path_string (p : path) :
  forallb plain_name p = true → split_slash (path_string p) = "" :: p.
Proof.
  induction p as [|e es IH]; [done|]. simpl forallb.
  intros [He Hes]%andb_prop.
  change (path_string (e :: es)) with (String "/"%char (e +:+ path_string es)).
  simpl. rewrite split_slash_append by by apply plain_name_split.
  rewrite IH by done. by rewrite append_empty_r.
Qed.

Lemma clean_from_plain (stack p : list string) :
  forallb plain_name p = true → clean_from stack p = rev stack ++ p.
Proof.
  revert stack. induction p as [|e es IH]; intros stack; simpl.
  - intros _. by rewrite app_nil_r.
  - intros [He Hes]%andb_prop. unfold plain_name in He.
    destruct (split_slash e) as [|x [|? ?]] eqn:E; try done.
    apply split_slash_single in E as ->.
    destruct (String.eqb e ""), (String.eqb e "."), (String.eqb e ".."); try done.
    simpl. rewrite IH by done. simpl. by rewrite <- app_assoc.
Qed.

(** The text of a cleaned path names that path again. *)
Lemma Abs_path_string (getwd : result path) (p : path) :
  p ≠ [] → forallb plain_name p = true → Abs getwd (path_string p) = Ok p.
Proof.
  intros Hne Hp. unfold Abs. destruct p as [|e es]; [done|].
  change (IsAbs (path_string (e :: es))) with true. cbv iota.
  rewrite split_slash_path_string by done.
  change (clean_from [] ("" :: e :: es)) with (clean_from [] (e :: es)).
  by rewrite clean_from_plain.
Qed.

Lemma path_string_not_url (p : path) :
  HasPrefix (path_string p) "http://" = false
  ∧ HasPrefix (path_string p) "https://" = false.
Proof. by destruct p. Qed.

Lemma downloadFile_keeps_dirs_to (w : World) (url : string) (p : path) (s s' : FS)
    (r : result unit) (d : path) :
  downloadFile w url p s = (r, s') → dirs_to s d → dirs_to s' d.
Proof.
  intros H Hd q Hq Hne.
  pose proof (downloadFile_keeps_dir _ _ _ _ _ _ q H) as E.
  destruct (Hd q Hq Hne) as [pm Hs]. unfold is_dir in E. rewrite Hs in E.
  destruct q as [|x q]; [done|]. destruct (s' !! (x :: q)) as [[pm'|]|]; [eauto|done..].
Qed.

(** X18.  A catalog install is the local install of what was
    downloaded.  Once the manifest and all its declared sources have been
    downloaded into the temporary directory, [installPlugin] on
    [catalog://item] ends as [installManifest] does on
    [<temp>/gitspace-plugin.toml] with the temporary directory as source
    root, in the plugins directory found at the start, and then removes
    the temporary directory.  The destination is named by the downloaded
    manifest, not by the catalog item. *)
Theorem catalog_install_composes (w : World) (catalogItem : string) (s sa s1 s2 s4 : FS)
    (catalog : GitspaceCatalog) (plugin : Plugin) (pluginsDir tempDir : path)
    (m : PluginManifest) :
  getPluginsDir w s = (Ok pluginsDir, sa) →
  FetchGitspaceCatalog w "ssotops" "gitspace-catalog" = Ok catalog →
  Plugins catalog !! catalogItem = Some plugin →
  plugin_Path plugin ≠ "" →
  MkdirTemp w sa = (Ok tempDir, s1) →
  forallb plain_name tempDir = true →
  downloadFile w (("https://raw.githubusercontent.com/" +:+ "ssotops" +:+ "/"
                   +:+ "gitspace-catalog" +:+ "/" +:+ "master" +:+ "/"
                   +:+ plugin_Path plugin) +:+ "/gitspace-plugin.toml")
    (Join tempDir "gitspace-plugin.toml") s1 = (Ok tt, s2) →
  loadPluginManifest w (Join tempDir "gitspace-plugin.toml") s2 = (Ok m, s2) →
  downloadSources w ("https://raw.githubusercontent.com/" +:+ "ssotops" +:+ "/"
                     +:+ "gitspace-catalog" +:+ "/" +:+ "master" +:+ "/"
                     +:+ plugin_Path plugin)
    tempDir (Sources m) s2 = (Ok tt, s4) →
  installPlugin w ("catalog://" +:+ catalogItem) s
  = let '(r, s5) :=
      installManifest w pluginsDir (Join tempDir "gitspace-plugin.toml") tempDir s4 in
    (r, remove_tree tempDir s5).
Proof.
  intros Hget Hfetch Hitem Hpath Htmp Hplain Hdm Hl Hds.
  destruct (getPluginsDir_ok _ _ _ _ Hget) as [HP Hagain].
  destruct (MkdirTemp_ok _ _ _ _ Htmp) as (_ & Hne & Hnone & Hs1).
  assert (HP1 : dirs_to s1 pluginsDir).
  { intros q Hq Hq'. rewrite Hs1. destruct (decide (q = tempDir)) as [->|Hneq].
    - destruct (HP _ Hq Hq') as [pm E]. congruence.
    - rewrite lookup_insert_ne by done. by apply HP. }
  assert (HP4 : dirs_to s4 pluginsDir).
  { eapply (downloadSources_inv w (λ t, dirs_to t pluginsDir)); [|exact Hds|].
    - intros src t r t' _ Hd. by eapply downloadFile_keeps_dirs_to.
    - by eapply downloadFile_keeps_dirs_to. }
  assert (Ht4 : is_dir s4 tempDir = true).
  { rewrite (downloadSources_keeps_dir _ _ _ _ _ _ _ _ Hds).
    rewrite (downloadFile_keeps_dir _ _ _ _ _ _ _ Hdm).
    rewrite Hs1. unfold is_dir. destruct tempDir; [done|]. by rewrite lookup_insert_eq. }
  rewrite installPlugin_unfold. unfold installPlugin_body at 1. unfold_m.
  rewrite Hget, HasPrefix_append, TrimPrefix_append.
  unfold installFromGitspaceCatalog. rewrite Hfetch, Hitem.
  apply String.eqb_neq in Hpath. rewrite Hpath. cbv zeta. unfold_m.
  rewrite Htmp, Hdm, Hl, Hds.
  destruct (path_string_not_url tempDir) as [Hh Hs].
  rewrite (installPlugin_local w _ _ (path_string_not_catalog tempDir) Hh Hs).
  rewrite (Hagain _ HP4).
  unfold resolveLocal, Stat. rewrite (Abs_path_string _ _ Hne Hplain). unfold_m.
  by rewrite Ht4.
Qed.

Lemma catalog_install_composes_witness :
  let run := installPlugin catalog_world ("catalog://" +:+ "flat") demo_fs in
  run.1 = Ok tt
  ∧ run.2 !! (demo_plugins ++ ["flat"; "main.go"]) = Some (FileNode "package main" perm_0644)
  ∧ run.2 !! ["tmp"; "gitspace-plugin-1"] = None.
Proof.
  intros run.
  set (tmp := ["tmp"; "gitspace-plugin-1"]).
  set (raw := "https://raw.githubusercontent.com/" +:+ "ssotops" +:+ "/"
              +:+ "gitspace-catalog" +:+ "/" +:+ "master" +:+ "/" +:+ "plugins/flat").
  set (s1 := (MkdirTemp catalog_world demo_ready).2).
  set (s2 := (downloadFile catalog_world (raw +:+ "/gitspace-plugin.toml")
                (Join tmp "gitspace-plugin.toml") s1).2).
  set (s4 := (downloadSources catalog_world raw tmp (Sources flat_manifest) s2).2).
  pose proof (catalog_install_composes catalog_world "flat" demo_fs demo_ready s1 s2 s4
                two_catalog
                {| plugin_Path := "plugins/flat"; plugin_Version := "1";
                   plugin_Description := "" |}
                demo_plugins tmp flat_manifest) as H.
  unfold run. rewrite H;
    [|by_running|by_running|by_running|discriminate|by_running|by_running
     |by_running|by_running|by_running].
  split; [|split]; vm_compute; reflexivity.
Defined.

(** ** Choosing from the catalog *)

(** X19.  What the catalog menu returns is a source that [installPlugin]
    takes back to the catalog.  If [range] visits keys of the catalog and
    the form returns the value of one of the options it was given, then
    the source [handleGitspaceCatalogInstall] returns is [catalog://name]
    for a plugin [name] that the catalog lists, and [installPlugin] on
    that source runs [installFromGitspaceCatalog] on exactly that name. *)
Theorem catalog_choice_resolves (w : World) (h : Host) (catalog : GitspaceCatalog)
    (selectedItem : string) :
  FetchGitspaceCatalog w "ssotops" "gitspace-catalog" = Ok catalog →
  (∀ name, name ∈ range_Plugins h (Plugins catalog) →
           is_Some (Plugins catalog !! name)) →
  (∀ options v, huh_Select h options = Ok v → v ∈ options.*2) →
  handleGitspaceCatalogInstall w h = Ok selectedItem →
  ∃ name plugin,
    selectedItem = "catalog://" +:+ name
    ∧ Plugins catalog !! name = Some plugin
    ∧ ∀ s, installPlugin w selectedItem s
           = match getPluginsDir w s with
             | (Ok _, sa) => installFromGitspaceCatalog w (installPlugin w) name sa
             | (Err e, sa) => (Err (Wrapf "failed to get plugins directory" e), sa)
             end.
Proof.
  intros Hfetch Hrange Hform. unfold handleGitspaceCatalogInstall. rewrite Hfetch.
  cbv zeta.
  destruct (map _ (range_Plugins h (Plugins catalog))) as [|o options] eqn:Eo; [done|].
  destruct (huh_Select h (o :: options)) as [v|e] eqn:Es; [|done]. intros [= <-].
  apply Hform in Es. rewrite <- Eo in Es.
  apply list_elem_of_fmap in Es as ([k v'] & -> & Hin).
  apply list_elem_of_fmap in Hin as (name & [= -> ->] & Hin).
  destruct (Hrange name Hin) as [plugin Hp].
  exists name, plugin. split; [done|]. split; [done|]. intros s.
  change ((name, "catalog://" +:+ name).2) with ("catalog://" +:+ name).
  rewrite installPlugin_unfold. unfold installPlugin_body. unfold_m.
  destruct (getPluginsDir w s) as [[P|e] sa]; [|done].
  by rewrite HasPrefix_append, TrimPrefix_append.
Qed.

Lemma catalog_choice_resolves_witness :
  ∃ name plugin,
    handleGitspaceCatalogInstall catalog_world demo_host = Ok ("catalog://" +:+ name)
    ∧ Plugins two_catalog !! name = Some plugin.
Proof.
  assert (Hsel : ∃ sel, handleGitspaceCatalogInstall catalog_world demo_host = Ok sel).
  { eexists. vm_compute. reflexivity. }
  destruct Hsel as [sel Hsel].
  destruct (catalog_choice_resolves catalog_world demo_host two_catalog sel)
    as (name & plugin & -> & Hp & _).
  - reflexivity.
  - intros name Hin. simpl in Hin. apply list_elem_of_fmap in Hin as ([k p] & -> & Hin).
    apply elem_of_map_to_list in Hin. by exists p.
  - intros options v. simpl. destruct options as [|o options]; [done|].
    intros [= <-]. simpl. by left.
  - exact Hsel.
  - exists name, plugin. split; [exact Hsel|exact Hp].
Defined.

(** ** Two names for one plugin, and no home directory *)

(** X20.  A plugin directory and the manifest inside it are the same
    install source: when [dir] is a directory and
    [dir/gitspace-plugin.toml] a regular file, [installPlugin] on a local
    source naming the one does exactly what it does on a local source
    naming the other. *)
Theorem manifest_file_or_directory (w : World) (source1 source2 : string) (s sa : FS)
    (pluginsDir absSource : path) :
  HasPrefix source1 "catalog://" = false →
  HasPrefix source1 "http://" = false →
  HasPrefix source1 "https://" = false →
  HasPrefix source2 "catalog://" = false →
  HasPrefix source2 "http://" = false →
  HasPrefix source2 "https://" = false →
  getPluginsDir w s = (Ok pluginsDir, sa) →
  Abs (Getwd w) source1 = Ok absSource →
  Abs (Getwd w) source2 = Ok (absSource ++ ["gitspace-plugin.toml"]) →
  is_dir sa absSource = true →
  is_file sa (absSource ++ ["gitspace-plugin.toml"]) = true →
  installPlugin w source1 s = installPlugin w source2 s.
Proof.
  intros Hc1 Hh1 Hs1 Hc2 Hh2 Hs2 Hget Ha1 Ha2 Hd Hf.
  rewrite !installPlugin_local by done. rewrite Hget.
  unfold resolveLocal, Stat. rewrite Ha1, Ha2. unfold_m. rewrite Hd, Hf.
  assert (Hnd : is_dir sa (absSource ++ ["gitspace-plugin.toml"]) = false).
  { unfold is_dir, is_file in *.
    destruct (absSource ++ ["gitspace-plugin.toml"]) eqn:E; [by destruct absSource|].
    by destruct (sa !! (s0 :: l)) as [[?|? ?]|]. }
  rewrite Hnd. unfold Ext. rewrite last_snoc, Dir_snoc.
  change (String.eqb (ext_of "gitspace-plugin.toml") ".toml") with true. cbv iota.
  by rewrite Join_plain.
Qed.

Lemma manifest_file_or_directory_witness :
  installPlugin demo_world "src/hello" demo_fs
  = installPlugin demo_world "src/hello/gitspace-plugin.toml" demo_fs.
Proof.
  apply (manifest_file_or_directory demo_world "src/hello"
           "src/hello/gitspace-plugin.toml" demo_fs demo_ready demo_plugins
           ["work"; "src"; "hello"]); by_running.
Defined.

(** X21.  Without a home directory nothing is attempted:
    [installPlugin] whatever the source, [uninstallPlugin],
    [printInstalledPlugins] and [runPlugin] all return the error of
    [os.UserHomeDir], wrapped twice, and leave the file system
    untouched. *)
Theorem no_home_directory (w : World) (h : Host) (e : error) (source name : string)
    (s : FS) :
  UserHomeDir w = Err e →
  installPlugin w source s
  = (Err (Wrapf "failed to get plugins directory"
            (Wrapf "failed to get user home directory" e)), s)
  ∧ uninstallPlugin w name s
    = (Err (Wrapf "failed to get plugins directory"
              (Wrapf "failed to get user home directory" e)), s)
  ∧ printInstalledPlugins w s
    = (Err (Wrapf "failed to get plugins directory"
              (Wrapf "failed to get user home directory" e)), s)
  ∧ runPlugin w h s
    = (Err (Wrapf "failed to get plugins directory"
              (Wrapf "failed to get user home directory" e)), s).
Proof.
  intros He.
  assert (Hget : getPluginsDir w s
                 = (Err (Wrapf "failed to get user home directory" e), s)).
  { unfold getPluginsDir. by rewrite He. }
  unfold installPlugin, installPlugin_body, uninstallPlugin, printInstalledPlugins,
    runPlugin. unfold_m. by rewrite Hget.
Qed.

Lemma no_home_directory_witness :
  let w := {| UserHomeDir := Err (External "$HOME is not defined");
              Getwd := Getwd demo_world; TempName := TempName demo_world;
              toml_Unmarshal := toml_Unmarshal demo_world;
              http_Get := http_Get demo_world;
              FetchGitspaceCatalog := FetchGitspaceCatalog demo_world;
              CombinedOutput := CombinedOutput demo_world;
              runtime_Version := runtime_Version demo_world |} in
  installPlugin w "src/hello" demo_fs
  = (Err (Wrapf "failed to get plugins directory"
            (Wrapf "failed to get user home directory"
               (External "$HOME is not defined"))), demo_fs).
Proof.
  intros w.
  destruct (no_home_directory w demo_host (External "$HOME is not defined")
              "src/hello" "hello" demo_fs eq_refl) as [H _].
  exact H.
Defined.
